(** * git-log-plugin: a shallow embedding of the plugin and its specification

    The development follows the TypeScript source of the Obsidian plugin:
    the daily-note file-name check, the construction of the [git log]
    command line, the rendering of the inserted admonition blocks and the
    two modal dialogs that drive one insertion.

    Two revisions of the plugin are embedded.  The current one (with the
    per-repository 'all branches' flag) lives at top level; the earlier one
    (src/main.ts, no flag) lives in [Module MainTs].

    A JavaScript string is modelled by the [string] of the bytes of its
    UTF-8 encoding.  The digit class [\d] of a RegExp without the [u] flag
    is [0-9] only and the pattern has no other class, so matching byte by
    byte is matching code unit by code unit; white space outside ASCII is
    recognised by its two- or three-byte encoding. *)

From Stdlib Require Import Ascii String Bool Arith Lia.
From stdpp Require Import base list strings.

(** ** JavaScript values that occur in the source *)

(** What [fileName?.match(re)] evaluates to: [undefined] when the optional
    chain is cut short, [null] when nothing matches, or the match array. *)
Inductive match_result : Type :=
  | MUndefined
  | MNull
  | MArray (elems : list string).

(** [a !== null] *)
Definition strict_ne_null (v : match_result) : bool :=
  match v with
  | MNull => false
  | _ => true
  end.

(** [v?.[0]], of type [string | undefined] with [None] for [undefined]:
    cut short when [v] is nullish, the first element otherwise (reading
    index 0 of an empty array gives [undefined]). *)
Definition opt_index0 (v : match_result) : option string :=
  match v with
  | MArray (x :: _) => Some x
  | _ => None
  end.

(** ToBoolean of a string: only the empty string is falsy. *)
Definition str_truthy (s : string) : bool := negb (String.eqb s "").

(** [v || null], of type [string | null] with [None] for [null]. *)
Definition or_null (v : option string) : option string :=
  match v with
  | Some s => if str_truthy s then Some s else None
  | None => None
  end.

(** ** Regular expressions: the fragment the source uses *)

(** An atom matches one character. *)
Inductive atom : Type :=
  | Digit                (* \d *)
  | Lit (c : ascii).     (* a literal character *)

(** A term is an assertion or a counted repetition of an atom. *)
Inductive term : Type :=
  | AssertStart                  (* ^ *)
  | AssertEnd                    (* $ *)
  | Rep (a : atom) (n : nat).    (* a{n} *)

Definition regex : Type := list term.

(** [\d] without the [u] flag: the characters [0] to [9]. *)
Definition is_digit (c : ascii) : bool :=
  let n := nat_of_ascii c in
  (48 <=? n)%nat && (n <=? 57)%nat.

Definition atom_matches (a : atom) (c : ascii) : bool :=
  match a with
  | Digit => is_digit c
  | Lit d => Ascii.eqb c d
  end.

(** Consume exactly [n] characters that match [a]; the rest of the input is
    returned. *)
Fixpoint match_rep (a : atom) (n : nat) (s : string) : option string :=
  match n with
  | O => Some s
  | S n' =>
      match s with
      | String c s' => if atom_matches a c then match_rep a n' s' else None
      | EmptyString => None
      end
  end.

(** Match the terms one after the other at offset [pos] of the input, of
    which [s] is the part from [pos] on.  Without the [m] flag [^] holds at
    offset 0 only and [$] at the end of the input only.  The result is the
    unconsumed rest of the input. *)
Fixpoint match_terms (r : regex) (pos : nat) (s : string) : option string :=
  match r with
  | [] => Some s
  | AssertStart :: r' =>
      if (pos =? 0)%nat then match_terms r' pos s else None
  | AssertEnd :: r' =>
      match s with
      | EmptyString => match_terms r' pos s
      | String _ _ => None
      end
  | Rep a n :: r' =>
      match match_rep a n s with
      | Some rest => match_terms r' (pos + n) rest
      | None => None
      end
  end.

(** The first [n] characters of [s]. *)
Fixpoint take_str (n : nat) (s : string) : string :=
  match n, s with
  | S n', String c s' => String c (take_str n' s')
  | _, _ => EmptyString
  end.

(** RegExp.prototype.exec for a regex without the [g] flag: try every
    start offset from the left and return the first match. *)
Fixpoint regexp_exec (r : regex) (pos : nat) (s : string) : option string :=
  match match_terms r pos s with
  | Some rest => Some (take_str (String.length s - String.length rest)%nat s)
  | None =>
      match s with
      | EmptyString => None
      | String _ s' => regexp_exec r (S pos) s'
      end
  end.

(** [s.match(r)] for a regex without groups and without the [g] flag: an
    array holding the matched text, or [null]. *)
Definition String_match (r : regex) (s : string) : match_result :=
  match regexp_exec r 0 s with
  | Some m => MArray [m]
  | None => MNull
  end.

(** [fileName?.match(r)]: [undefined] when [fileName] is [null]. *)
Definition opt_match (r : regex) (fileName : option string) : match_result :=
  match fileName with
  | None => MUndefined
  | Some s => String_match r s
  end.

(** ** DateResolver (the same in both revisions) *)

(** The regex literal of the source, [/^\d{4}-\d{2}-\d{2}$/]. *)
Definition dailyNoteRe : regex :=
  [AssertStart; Rep Digit 4; Rep (Lit "-"%char) 1; Rep Digit 2;
   Rep (Lit "-"%char) 1; Rep Digit 2; AssertEnd].

(** [return fileName?.match(/^\d{4}-\d{2}-\d{2}$/) !== null;] *)
Definition isDailyNote (fileName : option string) : bool :=
  strict_ne_null (opt_match dailyNoteRe fileName).

(** [return fileName?.match(/^\d{4}-\d{2}-\d{2}$/)?.[0] || null;] *)
Definition extractDateFromFileName (fileName : option string) : option string :=
  or_null (opt_index0 (opt_match dailyNoteRe fileName)).

(** The pattern in the words of the specification: four digits, a hyphen,
    two digits, a hyphen, two digits, and nothing else. *)
Definition all_digits (s : string) : Prop :=
  Forall (fun c => is_digit c = true) (list_ascii_of_string s).

Definition DatePattern (s : string) : Prop :=
  exists y m d : string,
    s = y +:+ "-" +:+ m +:+ "-" +:+ d /\
    String.length y = 4 /\ all_digits y /\
    String.length m = 2 /\ all_digits m /\
    String.length d = 2 /\ all_digits d.

(** ** Strings: the JavaScript operations the source relies on *)

(** The double-quote and line-feed characters of the template literals. *)
Definition dquote : ascii := "034"%char.
Definition DQ : string := String dquote "".
Definition LF : string := String "010"%char "".

(** The code points [String.prototype.trim] strips (WhiteSpace and
    LineTerminator of ECMAScript), by the length of their encoding.

    One byte: TAB, LF, VT, FF, CR and SP. *)
Definition white_space1 (a : ascii) : bool :=
  let x := nat_of_ascii a in
  ((9 <=? x)%nat && (x <=? 13)%nat) || (x =? 32)%nat.

(** Two bytes: U+00A0, encoded C2 A0. *)
Definition white_space2 (a b : ascii) : bool :=
  (nat_of_ascii a =? 194)%nat && (nat_of_ascii b =? 160)%nat.

(** Three bytes: U+1680 (E1 9A 80), U+2000 to U+200A (E2 80 80 to E2 80
    8A), U+2028 and U+2029 (E2 80 A8, E2 80 A9), U+202F (E2 80 AF), U+205F
    (E2 81 9F), U+3000 (E3 80 80) and U+FEFF (EF BB BF). *)
Definition white_space3 (a b c : ascii) : bool :=
  let x := nat_of_ascii a in
  let y := nat_of_ascii b in
  let z := nat_of_ascii c in
  ((x =? 225)%nat && (y =? 154)%nat && (z =? 128)%nat) ||
  ((x =? 226)%nat && (y =? 128)%nat &&
     (((128 <=? z)%nat && (z <=? 138)%nat) ||
      (z =? 168)%nat || (z =? 169)%nat || (z =? 175)%nat)) ||
  ((x =? 226)%nat && (y =? 129)%nat && (z =? 159)%nat) ||
  ((x =? 227)%nat && (y =? 128)%nat && (z =? 128)%nat) ||
  ((x =? 239)%nat && (y =? 187)%nat && (z =? 191)%nat).

(** Drop from the front every character recognised by [p1], [p2] or [p3]
    on its one, two or three bytes, up to the first that is not. *)
Fixpoint strip_leading (p1 : ascii -> bool) (p2 : ascii -> ascii -> bool)
    (p3 : ascii -> ascii -> ascii -> bool) (s : string) : string :=
  match s with
  | String a s1 =>
      if p1 a then strip_leading p1 p2 p3 s1
      else
        match s1 with
        | String b s2 =>
            if p2 a b then strip_leading p1 p2 p3 s2
            else
              match s2 with
              | String c s3 =>
                  if p3 a b c then strip_leading p1 p2 p3 s3 else s
              | EmptyString => s
              end
        | EmptyString => s
        end
  | EmptyString => EmptyString
  end.

Fixpoint rev_onto (s acc : string) : string :=
  match s with
  | String c s' => rev_onto s' (String c acc)
  | EmptyString => acc
  end.

(** The bytes of [s] in reverse order. *)
Definition rev_str (s : string) : string := rev_onto s "".

Definition trimStart (s : string) : string :=
  strip_leading white_space1 white_space2 white_space3 s.

(** White space at the end is white space at the front of the reversed
    bytes, its encodings read backwards. *)
Definition trimEnd (s : string) : string :=
  rev_str (strip_leading white_space1
             (fun a b => white_space2 b a)
             (fun a b c => white_space3 c b a)
             (rev_str s)).

(** [String.prototype.trim] *)
Definition trim (s : string) : string := trimEnd (trimStart s).

(** [Array.prototype.includes] on an array of strings. *)
Definition includes (l : list string) (x : string) : bool :=
  existsb (String.eqb x) l.

(** [s] begins with [needle]. *)
Fixpoint starts_with (needle s : string) : bool :=
  match needle with
  | EmptyString => true
  | String a needle' =>
      match s with
      | String b s' => Ascii.eqb a b && starts_with needle' s'
      | EmptyString => false
      end
  end.

(** [needle] occurs in [s] as a contiguous substring. *)
Fixpoint occurs (needle s : string) : bool :=
  starts_with needle s ||
  match s with
  | String _ s' => occurs needle s'
  | EmptyString => false
  end.



(** ** Data model *)

(** [interface GitRepo]; the optional [allBranches] is [None] when the
    property is missing ([undefined]). *)
Record GitRepo : Type := mkGitRepo {
  name : string;
  path : string;
  allBranches : option bool
}.

(** [interface GitLogPluginSettings] *)
Record GitLogPluginSettings : Type := mkSettings {
  repos : list GitRepo;
  lastSelectedRepos : list string
}.

Definition DEFAULT_SETTINGS : GitLogPluginSettings :=
  {| repos := []; lastSelectedRepos := [] |}.

(** ToBoolean of an optional boolean property. *)
Definition flag_truthy (b : option bool) : bool :=
  match b with
  | Some true => true
  | _ => false
  end.

(** A parameter declared [allBranches: boolean = false]: the default is
    taken when the argument is [undefined]. *)
Definition default_false (b : option bool) : bool :=
  match b with
  | Some v => v
  | None => false
  end.

(** ** The command line of [getGitLog] *)

(** The two template-literal lines of [getGitLog]. *)
Definition gitLogCommand (date repoPath : string) (allBranches : bool) : string :=
  let allBranchesFlag := if allBranches then "--all" else "" in
  "git -C " +:+ DQ +:+ repoPath +:+ DQ +:+ " log " +:+ allBranchesFlag +:+
  " --oneline --no-merges --date=short --format=" +:+ DQ +:+ "%h %s (%D)" +:+ DQ +:+
  " --after=" +:+ DQ +:+ date +:+ " 00:00:00" +:+ DQ +:+
  " --before=" +:+ DQ +:+ date +:+ " 23:59:59" +:+ DQ.

Module MainTs.

(** The template literal of [getGitLog] in src/main.ts, which has no
    [allBranches] parameter. *)
Definition gitLogCommand (date repoPath : string) : string :=
  "git -C " +:+ DQ +:+ repoPath +:+ DQ +:+
  " log --oneline --no-merges --date=short --format=" +:+ DQ +:+ "%h %s" +:+ DQ +:+
  " --after=" +:+ DQ +:+ date +:+ " 00:00:00" +:+ DQ +:+
  " --before=" +:+ DQ +:+ date +:+ " 23:59:59" +:+ DQ.

End MainTs.

(** ** Effects: the host state and a state-and-exception monad *)

(** How a JavaScript call ends: with a value or with a thrown error. *)
Inductive completion (A : Type) : Type :=
  | Normal (a : A)
  | Throw (e : string).
Arguments Normal {A} a.
Arguments Throw {A} e.

(** What one insertion can read and change: the plugin's in-memory
    [settings] (whose [repos] array holds the GitRepo objects, referred to
    by their index), the blob last written by [saveData], the notices
    shown, the texts handed to [editor.replaceSelection], and the lines
    written with [console.error]. *)
Record World : Type := mkWorld {
  settings : GitLogPluginSettings;
  saved : option GitLogPluginSettings;
  notices : list string;
  inserted : list string;
  console : list (list string)
}.

Definition M (A : Type) : Type := World -> completion A * World.

Definition ret {A} (a : A) : M A := fun w => (Normal a, w).

Definition bind {A B} (m : M A) (k : A -> M B) : M B :=
  fun w =>
    match m w with
    | (Normal a, w') => k a w'
    | (Throw e, w') => (Throw e, w')
    end.

(** [try { m } catch (error) { h error }]; effects of [m] before the throw
    are kept. *)
Definition try_catch {A} (m : M A) (h : string -> M A) : M A :=
  fun w =>
    match m w with
    | (Normal a, w') => (Normal a, w')
    | (Throw e, w') => h e w'
    end.

Notation "'let!' x ':=' m 'in' k" := (bind m (fun x => k))
  (at level 10, x name, m at level 100, k at level 200).
Notation "m '>>' k" := (bind m (fun _ => k))
  (at level 90, right associativity).

Definition set_settings (s : GitLogPluginSettings) (w : World) : World :=
  {| settings := s; saved := saved w; notices := notices w;
     inserted := inserted w; console := console w |}.

(** [new Notice(msg)] *)
Definition new_Notice (msg : string) : M unit :=
  fun w => (Normal tt,
            {| settings := settings w; saved := saved w;
               notices := notices w ++ [msg];
               inserted := inserted w; console := console w |}).

(** [editor.replaceSelection(text)] *)
Definition replaceSelection (text : string) : M unit :=
  fun w => (Normal tt,
            {| settings := settings w; saved := saved w; notices := notices w;
               inserted := inserted w ++ [text]; console := console w |}).

(** [console.error(a, b)] *)
Definition console_error (a b : string) : M unit :=
  fun w => (Normal tt,
            {| settings := settings w; saved := saved w; notices := notices w;
               inserted := inserted w; console := console w ++ [[a; b]] |}).

(** [saveSettings]: [await this.saveData(this.settings)], with a host
    whose write succeeds. *)
Definition saveSettings : M unit :=
  fun w => (Normal tt,
            {| settings := settings w; saved := Some (settings w);
               notices := notices w; inserted := inserted w;
               console := console w |}).

(** The objects a list of references stands for, read from the [repos]
    array as it is now. *)
Definition deref (rs : list GitRepo) (refs : list nat) : list GitRepo :=
  omap (fun i => rs !! i) refs.

(** [repos.filter(p)], as references into [repos] from index [i] on. *)
Fixpoint filter_refs (p : GitRepo -> bool) (i : nat) (rs : list GitRepo) : list nat :=
  match rs with
  | [] => []
  | r :: rs' =>
      if p r then i :: filter_refs p (S i) rs' else filter_refs p (S i) rs'
  end.

(** [class RepoSelectionModal]: its own fields and the [checked] state of
    the two checkboxes created per repository in [onOpen].  [this.repos] is
    the array [settings.repos] itself and stays in the [World]. *)
Record RepoSelectionModal : Type := mkModal {
  modal_lastSelectedRepos : list string;
  selectedRepos : list nat;
  checked : list bool;
  allBranchesChecked : list bool
}.

(** The suspended [insertGitLog]. *)
Inductive Phase : Type :=
  | AwaitDate                                     (* in promptForDate *)
  | AwaitRepos (date : string) (m : RepoSelectionModal)  (* in promptForRepos *)
  | Suspended     (* the promise awaited can no longer be resolved *)
  | Completed
  | Rejected (e : string).

(** What the user can do to the open modal. *)
Inductive Event : Type :=
  | ClickContinue (value : string)  (* date prompt: the button, with input.value *)
  | ChangeRepo (i : nat)            (* flip the checkbox of repository i *)
  | ChangeAllBranches (i : nat)     (* flip its 'All branches' checkbox *)
  | ClickInsert                     (* 'Insert Git Log' *)
  | CloseModal.                     (* dismiss the modal without its button *)

Section Plugin.

(** [execSync(command).toString()]: the output of the child process as
    text, or the error thrown when it cannot be run or exits with a
    failure. *)
Variable execSync : string -> completion string.

Definition exec (command : string) : M string :=
  fun w => (execSync command, w).

(** [getGitLog(date, repoPath, allBranches = false)] *)
Definition getGitLog (date repoPath : string) (allBranches : option bool) : M string :=
  try_catch
    (let command := gitLogCommand date repoPath (default_false allBranches) in
     let! out := exec command in
     let output := trim out in
     ret (if String.eqb output "" then "No commits found for the specified date."
          else output))
    (fun error =>
       console_error "Error executing git log:" error >>
       ret "Error: Unable to retrieve git log.").

(** One iteration of the [for (const repo of selectedRepos)] loop. *)
Definition append_block (date : string) (repo : GitRepo) (gitLog : string) : M string :=
  let gitLog1 :=
    gitLog +:+ (">[!NOTE]- `git log` for " +:+ name repo +:+
                (if flag_truthy (allBranches repo) then " (all branches)" else "") +:+
                LF) in
  let gitLog2 := gitLog1 +:+ ("> ```" +:+ LF) in
  let! log := getGitLog date (path repo) (allBranches repo) in
  let gitLog3 := gitLog2 +:+ ("> " +:+ log +:+ LF) in
  let gitLog4 := gitLog3 +:+ ("> ```" +:+ LF) in
  ret (gitLog4 +:+ LF).

Fixpoint for_of (date : string) (selected : list GitRepo) (gitLog : string) : M string :=
  match selected with
  | [] => ret gitLog
  | repo :: rest =>
      let! gitLog' := append_block date repo gitLog in
      for_of date rest gitLog'
  end.

(** [insertGitLog] from [const selectedRepos = await this.promptForRepos()]
    on, once the promise is resolved with [selected]. *)
Definition after_repos (date : string) (selected : list nat) : M unit :=
  fun w =>
    if (0 <? length selected)%nat then
      (let! gitLog := for_of date (deref (repos (settings w)) selected) "" in
       replaceSelection gitLog) w
    else
      new_Notice "No repositories selected. Git log not inserted." w.

(** The constructor and [onOpen] of RepoSelectionModal. *)
Definition open_RepoSelectionModal (rs : list GitRepo) (last : list string)
  : RepoSelectionModal :=
  {| modal_lastSelectedRepos := last;
     selectedRepos := filter_refs (fun repo => includes last (name repo)) 0 rs;
     checked := map (fun repo => includes last (name repo)) rs;
     allBranchesChecked := map (fun repo => flag_truthy (allBranches repo)) rs |}.

(** [insertGitLog] from [if (date)] on. *)
Definition after_date (date : option string) (w : World) : Phase * World :=
  match date with
  | Some d =>
      if str_truthy d then
        (AwaitRepos d
           (open_RepoSelectionModal (repos (settings w))
              (lastSelectedRepos (settings w))), w)
      else
        (Completed, snd (new_Notice "No date provided. Git log not inserted." w))
  | None =>
      (Completed, snd (new_Notice "No date provided. Git log not inserted." w))
  end.

(** [insertGitLog(editor, view)] up to its first suspension;
    [basename] is [view.file?.basename], [None] when there is no file. *)
Definition insertGitLog (basename : option string) (w : World) : Phase * World :=
  let fileName := default "" basename in
  if isDailyNote (Some fileName) then
    after_date (extractDateFromFileName (Some fileName)) w
  else
    (AwaitDate, w).

(** The [change] listener of the checkbox of repository [i]. *)
Definition on_change_repo (i : nat) (rs : list GitRepo) (m : RepoSelectionModal)
  : RepoSelectionModal :=
  match rs !! i, checked m !! i with
  | Some repo, Some old =>
      let now := negb old in
      {| modal_lastSelectedRepos := modal_lastSelectedRepos m;
         selectedRepos :=
           if now then selectedRepos m ++ [i]
           else List.filter
                  (fun r => match rs !! r with
                            | Some r' => negb (String.eqb (name r') (name repo))
                            | None => false
                            end)
                  (selectedRepos m);
         checked := <[i := now]> (checked m);
         allBranchesChecked := allBranchesChecked m |}
  | _, _ => m
  end.

Definition set_allBranches (v : bool) (repo : GitRepo) : GitRepo :=
  {| name := name repo; path := path repo; allBranches := Some v |}.

(** The [change] listener of the 'All branches' checkbox of repository
    [i]: [repo.allBranches = checked], on the object held by
    [settings.repos]. *)
Definition on_change_allBranches (i : nat) (m : RepoSelectionModal) (w : World)
  : RepoSelectionModal * World :=
  match allBranchesChecked m !! i with
  | Some old =>
      let now := negb old in
      ({| modal_lastSelectedRepos := modal_lastSelectedRepos m;
          selectedRepos := selectedRepos m;
          checked := checked m;
          allBranchesChecked := <[i := now]> (allBranchesChecked m) |},
       set_settings
         {| repos := alter (set_allBranches now) i (repos (settings w));
            lastSelectedRepos := lastSelectedRepos (settings w) |} w)
  | None => (m, w)
  end.

(** The callback given to RepoSelectionModal by [promptForRepos], followed
    by the rest of [insertGitLog]. *)
Definition on_submit_repos (date : string) (result : list nat) : M unit :=
  (fun w =>
     (Normal tt,
      set_settings
        {| repos := repos (settings w);
           lastSelectedRepos := map name (deref (repos (settings w)) result) |} w)) >>
  saveSettings >>
  after_repos date result.

Definition settle {A} (r : completion A * World) : Phase * World :=
  match r with
  | (Normal _, w) => (Completed, w)
  | (Throw e, w) => (Rejected e, w)
  end.

(** One user action on the pending insertion. *)
Definition step (st : Phase * World) (ev : Event) : Phase * World :=
  let (ph, w) := st in
  match ph, ev with
  | AwaitDate, ClickContinue v => after_date (Some v) w
  | AwaitDate, CloseModal => (Suspended, w)
  | AwaitRepos d m, ChangeRepo i =>
      (AwaitRepos d (on_change_repo i (repos (settings w)) m), w)
  | AwaitRepos d m, ChangeAllBranches i =>
      let (m', w') := on_change_allBranches i m w in (AwaitRepos d m', w')
  | AwaitRepos d m, ClickInsert => settle (on_submit_repos d (selectedRepos m) w)
  | AwaitRepos d m, CloseModal => (Suspended, w)
  | _, _ => st
  end.

Definition run (st : Phase * World) (evs : list Event) : Phase * World :=
  fold_left step evs st.

End Plugin.

(** ** Auxiliary decision procedures used by the statements *)

(** The pattern of [dailyNoteRe] as a test on the ten characters. *)
Definition date_shape (s : string) : bool :=
  match s with
  | String y1 (String y2 (String y3 (String y4 (String h1
      (String m1 (String m2 (String h2 (String d1 (String d2 EmptyString))))))))) =>
      is_digit y1 && is_digit y2 && is_digit y3 && is_digit y4 &&
      Ascii.eqb h1 "-" && is_digit m1 && is_digit m2 &&
      Ascii.eqb h2 "-" && is_digit d1 && is_digit d2
  | _ => false
  end.

(** The character [c] occurs in [s]. *)
Fixpoint char_in (c : ascii) (s : string) : bool :=
  match s with
  | EmptyString => false
  | String d s' => Ascii.eqb d c || char_in c s'
  end.



(** The fixed text of the command between the quoted path and the quoted
    format. *)
Definition command_options (allBranches : bool) : string :=
  " log " +:+ (if allBranches then "--all" else "") +:+
  " --oneline --no-merges --date=short --format=".

(** The [--after]/[--before] argument for a day, as the command spells it. *)
Definition window_arg (opt date time : string) : string :=
  opt +:+ "=" +:+ DQ +:+ date +:+ " " +:+ time +:+ DQ.

(** The block of one repository as the specification gives it (inserted
    text format): the header line, annotated when all branches are
    included, the fenced log text, and one blank line. *)
Definition formatBlock (repo : GitRepo) (logText : string) : string :=
  ">[!NOTE]- `git log` for " +:+ name repo +:+
  (if flag_truthy (allBranches repo) then " (all branches)" else "") +:+ LF +:+
  "> ```" +:+ LF +:+
  "> " +:+ logText +:+ LF +:+
  "> ```" +:+ LF +:+
  LF.

(** The world after the [console.error] of a failed query. *)
Definition logged (e : string) (w : World) : World :=
  snd (console_error "Error executing git log:" e w).

(** The world after the queries of [selected]: only the console grows, by
    one entry per failed query. *)
Fixpoint logged_all (execSync : string -> completion string) (date : string)
    (selected : list GitRepo) (w : World) : World :=
  match selected with
  | [] => w
  | repo :: rest =>
      let w' :=
        match execSync (gitLogCommand date (path repo)
                          (default_false (allBranches repo))) with
        | Normal _ => w
        | Throw e => logged e w
        end in
      logged_all execSync date rest w'
  end.

(** The text [getGitLog] returns for a repository, read off the outcome of
    the query. *)
Definition query_text (execSync : string -> completion string) (date : string)
    (repo : GitRepo) : string :=
  match execSync (gitLogCommand date (path repo)
                    (default_false (allBranches repo))) with
  | Normal out =>
      if String.eqb (trim out) "" then "No commits found for the specified date."
      else trim out
  | Throw _ => "Error: Unable to retrieve git log."
  end.

(** The blocks of [selected], one after the other. *)
Fixpoint blocks_text (execSync : string -> completion string) (date : string)
    (selected : list GitRepo) : string :=
  match selected with
  | [] => ""
  | repo :: rest =>
      formatBlock repo (query_text execSync date repo) +:+
      blocks_text execSync date rest
  end.

(** ** The selection dialog, as the statements read it *)

(** The modal after the user flipped the repository checkboxes [clicks],
    in that order. *)
Definition modal_after (rs : list GitRepo) (last : list string) (clicks : list nat)
  : RepoSelectionModal :=
  fold_left (fun m i => on_change_repo i rs m) clicks
            (open_RepoSelectionModal rs last).

(** What the 'Insert Git Log' button then hands to [onSubmit]. *)
Definition submitted (rs : list GitRepo) (last : list string) (clicks : list nat)
  : list GitRepo :=
  deref rs (selectedRepos (modal_after rs last clicks)).

(** The checked repositories in the display order of [rs], which is the
    order the specification asks of the result. *)
Fixpoint in_display_order (rs : list GitRepo) (checks : list bool) : list GitRepo :=
  match rs, checks with
  | r :: rs', c :: checks' =>
      if c then r :: in_display_order rs' checks' else in_display_order rs' checks'
  | _, _ => []
  end.

(** The events that flip a checkbox and leave the modal open. *)
Definition is_toggle (ev : Event) : bool :=
  match ev with
  | ChangeRepo _ | ChangeAllBranches _ => true
  | _ => false
  end.

Definition is_rejected (ph : Phase) : bool :=
  match ph with
  | Rejected _ => true
  | _ => false
  end.

(** With unique names, [selectedRepos] lists each checked repository once
    and no other. *)
Definition selection_matches (rs : list GitRepo) (m : RepoSelectionModal) : Prop :=
  NoDup (selectedRepos m) /\
  forall i, In i (selectedRepos m) <-> checked m !! i = Some true.

(** What a toggle leaves alone: the persisted blob, the last selection,
    the notices, the editor, and the names and paths of the
    repositories. *)
Definition toggle_frame (w w' : World) : Prop :=
  saved w' = saved w /\
  lastSelectedRepos (settings w') = lastSelectedRepos (settings w) /\
  notices w' = notices w /\
  inserted w' = inserted w /\
  map name (repos (settings w')) = map name (repos (settings w)) /\
  map path (repos (settings w')) = map path (repos (settings w)).

(** ** Sample data for the concrete instances *)

Module Sample.

Definition A : GitRepo := {| name := "A"; path := "/a"; allBranches := None |}.
Definition B : GitRepo := {| name := "B"; path := "/b"; allBranches := Some false |}.
Definition C : GitRepo := {| name := "C"; path := "/c"; allBranches := Some true |}.

(** A repository whose path is not a working copy. *)
Definition Bad : GitRepo :=
  {| name := "bad"; path := "/nowhere"; allBranches := None |}.

(** A host in which [git] fails for [/nowhere] and lists one commit
    everywhere else. *)
Definition execSync (command : string) : completion string :=
  if occurs "/nowhere" command then Throw "Command failed"
  else Normal ("abc123 fix bug" +:+ LF).

(** A host in which no repository has commits. *)
Definition execSync_quiet (command : string) : completion string :=
  Normal LF.

Definition world (rs : list GitRepo) (last : list string) : World :=
  {| settings := {| repos := rs; lastSelectedRepos := last |};
     saved := None; notices := []; inserted := []; console := [] |}.

End Sample.

(** ** Settings: loading, saving and the settings tab *)

(** What [loadData] resolves to: [null] when nothing was saved, or an
    object in which either property may be missing. *)
Record SettingsData : Type := mkData {
  data_repos : option (list GitRepo);
  data_lastSelectedRepos : option (list string)
}.

(** [Object.assign({}, DEFAULT_SETTINGS, data)]: every property [data] has
    replaces the default one; [null] contributes nothing. *)
Definition assign_settings (defaults : GitLogPluginSettings)
    (data : option SettingsData) : GitLogPluginSettings :=
  match data with
  | None => defaults
  | Some d =>
      {| repos := default (repos defaults) (data_repos d);
         lastSelectedRepos :=
           default (lastSelectedRepos defaults) (data_lastSelectedRepos d) |}
  end.

(** [loadData] of a host that returns what [saveData] wrote last. *)
Definition loadData (w : World) : option SettingsData :=
  match saved w with
  | None => None
  | Some s =>
      Some {| data_repos := Some (repos s);
              data_lastSelectedRepos := Some (lastSelectedRepos s) |}
  end.

(** What the user can do in the settings tab: submit the 'Add Repository'
    modal, flip the toggle of row [i] to [value], press 'Delete' in row
    [i]. *)
Inductive TabAction : Type :=
  | TabAdd (name path : string)
  | TabToggle (i : nat) (value : bool)
  | TabDelete (i : nat).

Definition set_repos (rs : list GitRepo) (w : World) : World :=
  set_settings {| repos := rs; lastSelectedRepos := lastSelectedRepos (settings w) |} w.

(** The callbacks that [GitLogSettingTab.display] installs.  A row exists
    for each repository of the array, so an action on a row that does not
    exist cannot happen and changes nothing. *)
Definition tab_step (w : World) (a : TabAction) : World :=
  match a with
  | TabAdd n p =>
      (* this.plugin.settings.repos.push({ name, path }); saveSettings() *)
      snd (saveSettings
             (set_repos (repos (settings w) ++
                         [{| name := n; path := p; allBranches := None |}]) w))
  | TabToggle i v =>
      (* repo.allBranches = value; saveSettings() *)
      match repos (settings w) !! i with
      | Some _ =>
          snd (saveSettings
                 (set_repos (alter (set_allBranches v) i (repos (settings w))) w))
      | None => w
      end
  | TabDelete i =>
      (* this.plugin.settings.repos.splice(index, 1); saveSettings() *)
      match repos (settings w) !! i with
      | Some _ => snd (saveSettings (set_repos (delete i (repos (settings w))) w))
      | None => w
      end
  end.

Definition tab_run (w : World) (actions : list TabAction) : World :=
  fold_left tab_step actions w.

(** The plugin together with the module-level [DEFAULT_SETTINGS] object.
    [Object.assign] copies property values, so after a load that found no
    [repos] in the data, [settings.repos] is the very array held by
    [DEFAULT_SETTINGS]; [repos_shared] records that, and a change made to
    the array or to its objects through the settings is then a change of
    the defaults too. *)
Record Plugin : Type := mkPlugin {
  host : World;
  defaults : GitLogPluginSettings;
  repos_shared : bool
}.

(** The plugin when its module was just evaluated. *)
Definition fresh_plugin (w : World) : Plugin :=
  {| host := w; defaults := DEFAULT_SETTINGS; repos_shared := false |}.

(** [loadSettings]:
    [this.settings = Object.assign({}, DEFAULT_SETTINGS, await this.loadData())],
    with the defaults as they are at that moment. *)
Definition loadSettings (pl : Plugin) : Plugin :=
  let data := loadData (host pl) in
  {| host := set_settings (assign_settings (defaults pl) data) (host pl);
     defaults := defaults pl;
     repos_shared :=
       match data with
       | Some d =>
           match data_repos d with
           | Some _ => false
           | None => true
           end
       | None => true
       end |}.

(** The plugin after its settings changed the world to [w']: a shared
    array shows the change in the defaults as well. *)
Definition write_through (pl : Plugin) (w' : World) : Plugin :=
  {| host := w';
     defaults :=
       if repos_shared pl then
         {| repos := repos (settings w');
            lastSelectedRepos := lastSelectedRepos (defaults pl) |}
       else defaults pl;
     repos_shared := repos_shared pl |}.

(** An action of the settings tab, which pushes to, splices or writes into
    the array in place. *)
Definition tab_action (pl : Plugin) (a : TabAction) : Plugin :=
  write_through pl (tab_step (host pl) a).

Definition tab_actions (pl : Plugin) (actions : list TabAction) : Plugin :=
  fold_left tab_action actions pl.

(** ** The loop of src/main.ts *)

Module MainTsFormatter.

Section Run.

Variable execSync : string -> completion string.

(** [getGitLog(date, repoPath)] of src/main.ts. *)
Definition getGitLog (date repoPath : string) : M string :=
  try_catch
    (let command := MainTs.gitLogCommand date repoPath in
     let! out := exec execSync command in
     let output := trim out in
     ret (if String.eqb output "" then "No commits found for the specified date."
          else output))
    (fun error =>
       console_error "Error executing git log:" error >>
       ret "Error: Unable to retrieve git log.").

(** One iteration of the loop of src/main.ts, whose GitRepo has no
    [allBranches] property. *)
Definition append_block (date : string) (repo : GitRepo) (gitLog : string) : M string :=
  let gitLog1 := gitLog +:+ (">[!NOTE]- `git log` for " +:+ name repo +:+ LF) in
  let gitLog2 := gitLog1 +:+ ("> ```" +:+ LF) in
  let! log := getGitLog date (path repo) in
  let gitLog3 := gitLog2 +:+ ("> " +:+ log +:+ LF) in
  let gitLog4 := gitLog3 +:+ ("> ```" +:+ LF) in
  ret (gitLog4 +:+ LF).

Fixpoint for_of (date : string) (selected : list GitRepo) (gitLog : string) : M string :=
  match selected with
  | [] => ret gitLog
  | repo :: rest =>
      let! gitLog' := append_block date repo gitLog in
      for_of date rest gitLog'
  end.

End Run.

End MainTsFormatter.

(** ** Readings used by the statements *)

(** The errors of the failed queries of [selected], in order. *)
Definition failures (execSync : string -> completion string) (date : string)
    (selected : list GitRepo) : list string :=
  omap (fun repo =>
          match execSync (gitLogCommand date (path repo)
                            (default_false (allBranches repo))) with
          | Normal _ => None
          | Throw e => Some e
          end) selected.

(** [s] begins with a character recognised by [p1], [p2] or [p3] on its
    one, two or three bytes. *)
Definition leading (p1 : ascii -> bool) (p2 : ascii -> ascii -> bool)
    (p3 : ascii -> ascii -> ascii -> bool) (s : string) : bool :=
  match s with
  | String a s1 =>
      p1 a ||
      match s1 with
      | String b s2 =>
          p2 a b ||
          match s2 with
          | String c _ => p3 a b c
          | EmptyString => false
          end
      | EmptyString => false
      end
  | EmptyString => false
  end.

(** [s] begins with a white-space character. *)
Definition leading_white_space (s : string) : bool :=
  leading white_space1 white_space2 white_space3 s.

(** [s] ends with a white-space character. *)
Definition trailing_white_space (s : string) : bool :=
  leading white_space1 (fun a b => white_space2 b a)
          (fun a b c => white_space3 c b a) (rev_str s).

(** A non-empty text that neither begins nor ends with white space. *)
Definition tidy (s : string) : Prop :=
  s <> "" /\ leading_white_space s = false /\ trailing_white_space s = false.

(** One insertion has shown at most one notice or inserted at most one
    text, never both: the outcome allowed in phase [ph] when the insertion
    started in world [w0]. *)
Definition outcome_ok (w0 : World) (ph : Phase) (w : World) : Prop :=
  match ph with
  | Completed =>
      (inserted w = inserted w0 /\
       (notices w = notices w0 ++ ["No date provided. Git log not inserted."] \/
        notices w = notices w0 ++ ["No repositories selected. Git log not inserted."])) \/
      (notices w = notices w0 /\ exists text, inserted w = inserted w0 ++ [text])
  | Rejected _ => False
  | _ => notices w = notices w0 /\ inserted w = inserted w0
  end.

(** The events that write an [allBranches] field. *)
Definition changes_allBranches (ev : Event) : bool :=
  match ev with
  | ChangeAllBranches _ => true
  | _ => false
  end.

(** Output that ends in an ideographic space (U+3000), a no-break space
    (U+00A0) and a line feed. *)
Definition wide_output : string :=
  "abc123 fix bug" +:+
  String "227"%char (String "128"%char (String "128"%char "")) +:+
  String "194"%char (String "160"%char "") +:+ LF.

(** * Theorems *)

(** ** DateResolver *)

Lemma take_str_all (s : string) : take_str (String.length s) s = s.
Proof. induction s as [|c s IH]; simpl; [reflexivity | now rewrite IH]. Qed.

(** [^] fails at every offset but the first. *)
Lemma match_terms_anchored (pos : nat) (s : string) :
  match_terms dailyNoteRe (S pos) s = None.
Proof. reflexivity. Qed.

Lemma regexp_exec_anchored (s : string) (pos : nat) :
  regexp_exec dailyNoteRe (S pos) s = None.
Proof.
  revert pos; induction s as [|c s IH]; intros pos.
  - reflexivity.
  - cbn [regexp_exec]. rewrite match_terms_anchored. apply IH.
Qed.

Ltac use_tests :=
  repeat match goal with
         | H : ?t = ?v |- context [?t] => rewrite H
         end.

Ltac split_tests :=
  repeat (cbn -[Ascii.eqb is_digit];
          first
            [ progress use_tests
            | match goal with
              | |- context [is_digit ?c] => is_var c; destruct (is_digit c) eqn:?
              | |- context [Ascii.eqb ?c ?d] => is_var c; destruct (Ascii.eqb c d) eqn:?
              end ]);
  try reflexivity.

Lemma match_terms_shape (s : string) :
  match_terms dailyNoteRe 0 s = if date_shape s then Some EmptyString else None.
Proof.
  unfold dailyNoteRe, date_shape.
  do 11 (try destruct s as [|? s]); split_tests.
Qed.

Lemma date_shape_pattern (s : string) : date_shape s = true <-> DatePattern s.
Proof.
  split.
  - unfold date_shape.
    do 11 (destruct s as [|? s]; try discriminate).
    intros H.
    repeat match goal with
           | H : (_ && _) = true |- _ => apply andb_prop in H; destruct H
           end.
    repeat match goal with
           | E : Ascii.eqb _ _ = true |- _ => apply Ascii.eqb_eq in E; subst
           end.
    exists (String a (String a0 (String a1 (String a2 EmptyString)))),
           (String a4 (String a5 EmptyString)),
           (String a7 (String a8 EmptyString)).
    unfold all_digits; cbn.
    repeat split; repeat constructor; assumption.
  - intros (y & m & d & -> & Hy & Dy & Hm & Dm & Hd & Dd).
    do 5 (destruct y as [|? y]; try discriminate).
    do 3 (destruct m as [|? m]; try discriminate).
    do 3 (destruct d as [|? d]; try discriminate).
    unfold all_digits in *; cbn in *.
    repeat match goal with
           | F : Forall _ (_ :: _) |- _ => inversion F; subst; clear F
           end.
    cbv -[is_digit].
    repeat match goal with E : is_digit _ = true |- _ => rewrite E; clear E end.
    reflexivity.
Qed.

Lemma String_match_shape (s : string) :
  String_match dailyNoteRe s = if date_shape s then MArray [s] else MNull.
Proof.
  unfold String_match.
  destruct s as [|c s].
  - reflexivity.
  - cbn [regexp_exec]. rewrite match_terms_shape, regexp_exec_anchored.
    destruct (date_shape (String c s)); [|reflexivity].
    cbn [String.length]. rewrite Nat.sub_0_r.
    change (S (String.length s)) with (String.length (String c s)).
    now rewrite take_str_all.
Qed.

(** C1. For every string [s], [isDailyNote s] holds exactly when [s] is
    four digits, a hyphen, two digits, a hyphen and two digits, with
    nothing before or after and no calendar check;
    [extractDateFromFileName s] is [s] itself when it does and [null] for
    every other string, among them the empty string, a partial date and a
    date embedded in a longer string. *)
Theorem isDailyNote_iff_pattern (s : string) :
  (isDailyNote (Some s) = true <-> DatePattern s) /\
  (DatePattern s -> extractDateFromFileName (Some s) = Some s) /\
  (~ DatePattern s -> extractDateFromFileName (Some s) = None) /\
  DatePattern "2024-13-99" /\
  extractDateFromFileName (Some "") = None /\
  extractDateFromFileName (Some "2024-03") = None /\
  extractDateFromFileName (Some "notes 2024-03-15 draft") = None.
Proof.
  assert (Hex : forall t, extractDateFromFileName (Some t) =
                          if date_shape t then Some t else None).
  { intros t. unfold extractDateFromFileName, opt_match.
    rewrite String_match_shape.
    destruct (date_shape t) eqn:E; [|reflexivity].
    destruct t; [discriminate E | reflexivity]. }
  assert (Hd : isDailyNote (Some s) = date_shape s).
  { unfold isDailyNote, opt_match. rewrite String_match_shape.
    now destruct (date_shape s). }
  rewrite Hd, !Hex, <- date_shape_pattern.
  split; [reflexivity|].
  split; [now intros ->|].
  split; [now destruct (date_shape s)|].
  split; [apply date_shape_pattern; reflexivity|].
  repeat split.
Qed.

Lemma isDailyNote_iff_pattern_witness :
  extractDateFromFileName (Some "2024-03-15") = Some "2024-03-15" /\
  extractDateFromFileName (Some "15-03-2024") = None.
Proof.
  split.
  - destruct (isDailyNote_iff_pattern "2024-03-15") as (_ & Hyes & _).
    apply Hyes, date_shape_pattern. reflexivity.
  - destruct (isDailyNote_iff_pattern "15-03-2024") as (_ & _ & Hno & _).
    apply Hno. intros H. apply date_shape_pattern in H. discriminate H.
Defined.

(** C10. On [null], [isDailyNote] answers true, because the optional chain
    yields [undefined] and [undefined !== null], while
    [extractDateFromFileName] yields [null]: the check holding does not
    imply that a date is extracted. *)
Theorem isDailyNote_null_disagrees :
  isDailyNote None = true /\
  opt_match dailyNoteRe None = MUndefined /\
  extractDateFromFileName None = None /\
  ~ (forall f : option string,
       isDailyNote f = true -> exists d, extractDateFromFileName f = Some d).
Proof.
  repeat split.
  intros H. destruct (H None eq_refl) as [d Hd]. discriminate Hd.
Qed.

(** ** Strings *)

Lemma app_cons (c : ascii) (a b : string) : String c a +:+ b = String c (a +:+ b).
Proof. reflexivity. Qed.

Lemma app_empty (b : string) : "" +:+ b = b.
Proof. reflexivity. Qed.

Lemma app_assoc_str (a b c : string) : (a +:+ b) +:+ c = a +:+ (b +:+ c).
Proof. induction a as [|x a IH]; [reflexivity|]. now rewrite !app_cons, IH. Qed.

Lemma app_empty_r (a : string) : a +:+ "" = a.
Proof. induction a as [|x a IH]; [reflexivity|]. now rewrite app_cons, IH. Qed.

Lemma starts_with_app (n b : string) : starts_with n (n +:+ b) = true.
Proof.
  induction n as [|x n IH]; [reflexivity|].
  rewrite app_cons. cbn. now rewrite Ascii.eqb_refl, IH.
Qed.

(** A character foreign to the needle cuts every candidate occurrence. *)
Lemma starts_with_sep (n a b : string) (c : ascii) :
  char_in c n = false ->
  starts_with n (a +:+ String c b) = starts_with n a.
Proof.
  revert a; induction n as [|x n IH]; intros a Hc; [reflexivity|].
  cbn in Hc. apply orb_false_elim in Hc as [Hx Hn].
  destruct a as [|y a].
  - rewrite app_empty. cbn. now rewrite Hx.
  - rewrite app_cons. cbn. now rewrite IH.
Qed.

Lemma occurs_sep (n a b : string) (c : ascii) :
  char_in c n = false ->
  occurs n (a +:+ String c b) = occurs n a || occurs n b.
Proof.
  intros Hc. induction a as [|y a IH].
  - rewrite app_empty. cbn [occurs].
    change (String c b) with ("" +:+ String c b) at 1.
    rewrite (starts_with_sep n "" b c Hc). now rewrite orb_false_r.
  - rewrite app_cons. cbn [occurs].
    change (String y (a +:+ String c b)) with (String y a +:+ String c b).
    rewrite (starts_with_sep n (String y a) b c Hc), IH. now rewrite orb_assoc.
Qed.

Lemma occurs_app_r (n a b : string) : occurs n b = true -> occurs n (a +:+ b) = true.
Proof.
  intros H. induction a as [|y a IH]; [exact H|].
  rewrite app_cons. cbn [occurs]. rewrite IH. apply orb_true_r.
Qed.

Lemma occurs_here (n b : string) : occurs n (n +:+ b) = true.
Proof.
  destruct (n +:+ b) eqn:E; cbn [occurs]; rewrite <- E, starts_with_app; reflexivity.
Qed.






(** ** The command line *)

(** The command, cut at the characters that separate its parts. *)
Lemma gitLogCommand_parts (date repoPath : string) (allBranches : bool) :
  gitLogCommand date repoPath allBranches =
  "git -C " +:+ String dquote (repoPath +:+ String dquote
    (command_options allBranches +:+ String dquote
      ("%h %s (%D)" +:+ String dquote
        (" --after=" +:+ String dquote (date +:+ String " "
          ("00:00:00" +:+ String dquote
            (" --before=" +:+ String dquote (date +:+ String " "
              ("23:59:59" +:+ String dquote ""))))))))).
Proof.
  unfold gitLogCommand, command_options. rewrite !app_assoc_str. reflexivity.
Qed.

Lemma MainTs_gitLogCommand_parts (date repoPath : string) :
  MainTs.gitLogCommand date repoPath =
  "git -C " +:+ String dquote (repoPath +:+ String dquote
    (" log --oneline --no-merges --date=short --format=" +:+ String dquote
      ("%h %s" +:+ String dquote
        (" --after=" +:+ String dquote (date +:+ String " "
          ("00:00:00" +:+ String dquote
            (" --before=" +:+ String dquote (date +:+ String " "
              ("23:59:59" +:+ String dquote ""))))))))).
Proof. reflexivity. Qed.

(** Replace every [occurs] test on closed strings by its value. *)
Ltac eval_closed :=
  repeat match goal with
         | |- context [occurs ?n ?l] =>
             let v := eval vm_compute in (occurs n l) in
             match v with
             | true => idtac
             | false => idtac
             end;
             change (occurs n l) with v
         end.

Lemma occurs_window (opt date time pre post : string) :
  occurs (window_arg opt date time)
         (pre +:+ opt +:+ "=" +:+ DQ +:+ date +:+ " " +:+ time +:+ DQ +:+ post) = true.
Proof.
  apply occurs_app_r. unfold window_arg.
  replace (opt +:+ "=" +:+ DQ +:+ date +:+ " " +:+ time +:+ DQ +:+ post)
    with ((opt +:+ "=" +:+ DQ +:+ date +:+ " " +:+ time +:+ DQ) +:+ post)
    by (rewrite !app_assoc_str; reflexivity).
  apply occurs_here.
Qed.

(** C2 (amended). For every date and repository path the command holds the
    [--all] flag exactly when all branches are requested (path and date
    aside, which are copied into it); the ref decoration [(%D)] is part of
    the [--format] argument whether or not all branches are requested; and
    in both cases the command has [--no-merges] and the window from
    [--after=] the date at [00:00:00] to [--before=] the date at
    [23:59:59], each in double quotes.  The command of src/main.ts has
    neither the flag nor the decoration. *)
Theorem gitLogCommand_scope_and_window (date repoPath : string) (allBranches : bool) :
  occurs "--all" (gitLogCommand date repoPath allBranches) =
    allBranches || occurs "--all" repoPath || occurs "--all" date /\
  occurs "(%D)" (gitLogCommand date repoPath allBranches) = true /\
  occurs "--no-merges" (gitLogCommand date repoPath allBranches) = true /\
  occurs (window_arg "--after" date "00:00:00")
         (gitLogCommand date repoPath allBranches) = true /\
  occurs (window_arg "--before" date "23:59:59")
         (gitLogCommand date repoPath allBranches) = true /\
  occurs "--all" (MainTs.gitLogCommand date repoPath) =
    occurs "--all" repoPath || occurs "--all" date /\
  occurs "(%D)" (MainTs.gitLogCommand date repoPath) =
    occurs "(%D)" repoPath || occurs "(%D)" date.
Proof.
  split; [|split; [|split; [|split; [|split; [|split]]]]].
  - rewrite gitLogCommand_parts, !occurs_sep by reflexivity.
    destruct allBranches; eval_closed; cbn [orb];
      destruct (occurs "--all" repoPath), (occurs "--all" date); reflexivity.
  - rewrite gitLogCommand_parts, !occurs_sep by reflexivity.
    eval_closed. now rewrite !orb_true_r.
  - rewrite gitLogCommand_parts, !occurs_sep by reflexivity.
    destruct allBranches; eval_closed; now rewrite !orb_true_r.
  - unfold gitLogCommand.
    set (pre := "git -C " +:+ DQ +:+ repoPath +:+ DQ +:+ " log " +:+
                (if allBranches then "--all" else "") +:+
                " --oneline --no-merges --date=short --format=" +:+ DQ +:+
                "%h %s (%D)" +:+ DQ +:+ " ").
    set (post := " --before=" +:+ DQ +:+ date +:+ " 23:59:59" +:+ DQ).
    replace (occurs _ _) with
      (occurs (window_arg "--after" date "00:00:00")
         (pre +:+ "--after" +:+ "=" +:+ DQ +:+ date +:+ " " +:+ "00:00:00" +:+ DQ +:+ post)).
    + apply occurs_window.
    + f_equal. unfold pre, post. rewrite !app_assoc_str. reflexivity.
  - unfold gitLogCommand.
    set (pre := "git -C " +:+ DQ +:+ repoPath +:+ DQ +:+ " log " +:+
                (if allBranches then "--all" else "") +:+
                " --oneline --no-merges --date=short --format=" +:+ DQ +:+
                "%h %s (%D)" +:+ DQ +:+ " --after=" +:+ DQ +:+ date +:+
                " 00:00:00" +:+ DQ +:+ " ").
    replace (occurs _ _) with
      (occurs (window_arg "--before" date "23:59:59")
         (pre +:+ "--before" +:+ "=" +:+ DQ +:+ date +:+ " " +:+ "23:59:59" +:+ DQ +:+ "")).
    + apply occurs_window.
    + f_equal. unfold pre. rewrite !app_assoc_str. reflexivity.
  - rewrite MainTs_gitLogCommand_parts, !occurs_sep by reflexivity.
    eval_closed. cbn [orb].
    destruct (occurs "--all" repoPath), (occurs "--all" date); reflexivity.
  - rewrite MainTs_gitLogCommand_parts, !occurs_sep by reflexivity.
    eval_closed. cbn [orb].
    destruct (occurs "(%D)" repoPath), (occurs "(%D)" date); reflexivity.
Qed.

(** C2 as stated fails: without all branches the command still asks for the
    ref decoration. *)
Lemma gitLogCommand_decoration_without_allBranches :
  ~ (occurs "(%D)" (gitLogCommand "2024-03-15" "/repo" false) = false /\
     occurs "--all" (gitLogCommand "2024-03-15" "/repo" false) = false).
Proof. intros [H _]. vm_compute in H. discriminate H. Qed.









(** ** LogQueryFormatter *)

Section Formatter.

Variable execSync : string -> completion string.

(** [getGitLog] always completes normally; its value and effect are
    decided by the outcome of the query. *)
Lemma getGitLog_cases (date repoPath : string) (ab : option bool) (w : World) :
  getGitLog execSync date repoPath ab w =
  match execSync (gitLogCommand date repoPath (default_false ab)) with
  | Normal out =>
      (Normal (if String.eqb (trim out) ""
               then "No commits found for the specified date."
               else trim out), w)
  | Throw e => (Normal "Error: Unable to retrieve git log.", logged e w)
  end.
Proof.
  unfold getGitLog, try_catch, bind, exec, ret.
  destruct (execSync _); reflexivity.
Qed.

Lemma getGitLog_normal (date repoPath : string) (ab : option bool) (w : World) :
  exists s w', getGitLog execSync date repoPath ab w = (Normal s, w').
Proof. rewrite getGitLog_cases. destruct (execSync _); eauto. Qed.

(** One iteration appends the block of the repository around the text
    [getGitLog] returned. *)
Lemma append_block_text (date : string) (repo : GitRepo) (gitLog : string) (w : World) :
  exists s w',
    getGitLog execSync date (path repo) (allBranches repo) w = (Normal s, w') /\
    append_block execSync date repo gitLog w =
      (Normal (gitLog +:+ formatBlock repo s), w').
Proof.
  destruct (getGitLog_normal date (path repo) (allBranches repo) w) as (s & w' & E).
  exists s, w'. split; [exact E|].
  unfold append_block, bind, ret. rewrite E. unfold formatBlock.
  rewrite !app_assoc_str. reflexivity.
Qed.

Lemma getGitLog_query_text (date : string) (repo : GitRepo) (w : World) :
  getGitLog execSync date (path repo) (allBranches repo) w =
    (Normal (query_text execSync date repo), logged_all execSync date [repo] w).
Proof.
  rewrite getGitLog_cases. unfold query_text. cbn [logged_all].
  destruct (execSync _); reflexivity.
Qed.

(** The loop never throws, and what it appends depends neither on the
    text accumulated so far nor on the world. *)
Lemma for_of_text (date : string) (selected : list GitRepo) (gitLog : string) (w : World) :
  for_of execSync date selected gitLog w =
    (Normal (gitLog +:+ blocks_text execSync date selected),
     logged_all execSync date selected w).
Proof.
  revert gitLog w. induction selected as [|repo rest IH]; intros gitLog w.
  - cbn. unfold ret. now rewrite app_empty_r.
  - cbn [for_of blocks_text]. unfold bind.
    destruct (append_block_text date repo gitLog w) as (s & w' & Hs & ->).
    rewrite getGitLog_query_text in Hs. injection Hs as <- <-.
    rewrite IH, app_assoc_str. reflexivity.
Qed.

Lemma blocks_text_app (date : string) (l1 l2 : list GitRepo) :
  blocks_text execSync date (l1 ++ l2) =
  blocks_text execSync date l1 +:+ blocks_text execSync date l2.
Proof.
  induction l1 as [|repo l1 IH]; [reflexivity|].
  cbn [app blocks_text]. now rewrite IH, app_assoc_str.
Qed.

(** C4. [getGitLog] never raises: it completes normally in every world;
    when the query fails it returns the literal
    [Error: Unable to retrieve git log.] (and logs the failure), when the
    query succeeds without output lines it returns the literal
    [No commits found for the specified date.]; and in the loop a failing
    repository gets a block holding the error text while the blocks before
    and after it are rendered as they are without it. *)
Theorem getGitLog_swallows_failure
    (date repoPath : string) (ab : option bool) (w : World) :
  (exists s w', getGitLog execSync date repoPath ab w = (Normal s, w')) /\
  (forall e,
     execSync (gitLogCommand date repoPath (default_false ab)) = Throw e ->
     getGitLog execSync date repoPath ab w =
       (Normal "Error: Unable to retrieve git log.", logged e w)) /\
  (forall out,
     execSync (gitLogCommand date repoPath (default_false ab)) = Normal out ->
     trim out = "" ->
     getGitLog execSync date repoPath ab w =
       (Normal "No commits found for the specified date.", w)) /\
  (forall (before after : list GitRepo) (repo : GitRepo) (tb ta : string),
     path repo = repoPath -> allBranches repo = ab ->
     (exists e, execSync (gitLogCommand date repoPath (default_false ab)) = Throw e) ->
     fst (for_of execSync date before "" w) = Normal tb ->
     fst (for_of execSync date after "" w) = Normal ta ->
     fst (for_of execSync date (before ++ repo :: after) "" w) =
       Normal (tb +:+ formatBlock repo "Error: Unable to retrieve git log." +:+ ta)) /\
  (forall (selected : list GitRepo) (gitLog : string),
     exists t w', for_of execSync date selected gitLog w = (Normal t, w')).
Proof.
  split; [apply getGitLog_normal|].
  split; [intros e E; now rewrite getGitLog_cases, E|].
  split; [intros out E T; now rewrite getGitLog_cases, E, T|].
  split.
  - intros before after repo tb ta <- <- [e E].
    rewrite !for_of_text. cbn [fst]. rewrite !app_empty.
    intros [= <-] [= <-]. rewrite blocks_text_app. cbn [blocks_text].
    unfold query_text. rewrite E. reflexivity.
  - intros selected gitLog. rewrite for_of_text. eauto.
Qed.

(** C5. With one repository [R] selected whose query returns
    [abc123 fix bug], the text handed to the editor is the header line
    for [R.name], the fence, the log line, the fence and one blank line;
    the header carries the suffix [ (all branches)] after the name when
    the flag of [R] is set, and nothing else changes. *)
Theorem single_repository_block
    (date : string) (R : GitRepo) (i : nat) (out : string) (w : World) :
  repos (settings w) !! i = Some R ->
  execSync (gitLogCommand date (path R) (default_false (allBranches R))) = Normal out ->
  trim out = "abc123 fix bug" ->
  after_repos execSync date [i] w =
    (Normal tt,
     snd (replaceSelection
            (">[!NOTE]- `git log` for " +:+ name R +:+
             (if flag_truthy (allBranches R) then " (all branches)" else "") +:+ LF +:+
             "> ```" +:+ LF +:+
             "> abc123 fix bug" +:+ LF +:+
             "> ```" +:+ LF +:+
             LF) w)).
Proof.
  intros Hi E T. unfold after_repos, deref. cbn [omap list_omap]. rewrite Hi.
  cbn [length Nat.ltb Nat.leb]. unfold bind. rewrite for_of_text.
  cbn [blocks_text logged_all]. unfold query_text. rewrite E, T.
  cbn [String.eqb]. rewrite app_empty, app_empty_r. reflexivity.
Qed.

End Formatter.

Lemma getGitLog_swallows_failure_witness :
  getGitLog Sample.execSync "2024-03-15" "/nowhere" None (Sample.world [] []) =
    (Normal "Error: Unable to retrieve git log.",
     logged "Command failed" (Sample.world [] [])) /\
  getGitLog Sample.execSync_quiet "2024-03-15" "/a" None (Sample.world [] []) =
    (Normal "No commits found for the specified date.", Sample.world [] []) /\
  fst (for_of Sample.execSync "2024-03-15" [Sample.A; Sample.Bad; Sample.C] ""
         (Sample.world [] [])) =
    Normal (formatBlock Sample.A "abc123 fix bug" +:+
            formatBlock Sample.Bad "Error: Unable to retrieve git log." +:+
            formatBlock Sample.C "abc123 fix bug").
Proof.
  split; [|split].
  - destruct (getGitLog_swallows_failure Sample.execSync "2024-03-15" "/nowhere"
                None (Sample.world [] [])) as (_ & Hfail & _).
    apply (Hfail "Command failed"). reflexivity.
  - destruct (getGitLog_swallows_failure Sample.execSync_quiet "2024-03-15" "/a"
                None (Sample.world [] [])) as (_ & _ & Hquiet & _).
    apply (Hquiet LF); reflexivity.
  - destruct (getGitLog_swallows_failure Sample.execSync "2024-03-15" "/nowhere"
                None (Sample.world [] [])) as (_ & _ & _ & Hloop & _).
    apply (Hloop [Sample.A] [Sample.C] Sample.Bad); try reflexivity.
    exists "Command failed". reflexivity.
Defined.

Lemma single_repository_block_witness :
  inserted (snd (after_repos Sample.execSync "2024-03-15" [1]
                   (Sample.world [Sample.A; Sample.B; Sample.C] []))) =
    [">[!NOTE]- `git log` for B" +:+ LF +:+ "> ```" +:+ LF +:+
     "> abc123 fix bug" +:+ LF +:+ "> ```" +:+ LF +:+ LF] /\
  inserted (snd (after_repos Sample.execSync "2024-03-15" [2]
                   (Sample.world [Sample.A; Sample.B; Sample.C] []))) =
    [">[!NOTE]- `git log` for C (all branches)" +:+ LF +:+ "> ```" +:+ LF +:+
     "> abc123 fix bug" +:+ LF +:+ "> ```" +:+ LF +:+ LF].
Proof.
  split.
  - rewrite (single_repository_block Sample.execSync "2024-03-15" Sample.B 1
               ("abc123 fix bug" +:+ LF)); reflexivity.
  - rewrite (single_repository_block Sample.execSync "2024-03-15" Sample.C 2
               ("abc123 fix bug" +:+ LF)); reflexivity.
Defined.

(** ** RepositorySelector *)

Lemma deref_cons (rs : list GitRepo) (i : nat) (refs : list nat) :
  deref rs (i :: refs) =
  match rs !! i with
  | Some r => r :: deref rs refs
  | None => deref rs refs
  end.
Proof. reflexivity. Qed.

Lemma deref_app (rs : list GitRepo) (l1 l2 : list nat) :
  deref rs (l1 ++ l2) = deref rs l1 ++ deref rs l2.
Proof.
  induction l1 as [|i l1 IH]; [reflexivity|].
  cbn [app]. rewrite !deref_cons, IH. now destruct (rs !! i).
Qed.

(** The references [filter] returns stand for the filtered objects, in the
    order of the array. *)
Lemma deref_filter_refs (p : GitRepo -> bool) (pre rs : list GitRepo) :
  deref (pre ++ rs) (filter_refs p (length pre) rs) = List.filter p rs.
Proof.
  revert pre. induction rs as [|r rs IH]; intros pre; [reflexivity|].
  cbn [filter_refs List.filter].
  assert (E : pre ++ r :: rs = (pre ++ [r]) ++ rs) by now rewrite <- app_assoc.
  assert (L : S (length pre) = length (pre ++ [r])) by (rewrite length_app; cbn; lia).
  destruct (p r).
  - rewrite deref_cons, list_lookup_middle by reflexivity.
    f_equal. rewrite E, L. apply IH.
  - rewrite E, L. apply IH.
Qed.

Lemma In_filter_refs (p : GitRepo -> bool) (k : nat) (rs : list GitRepo) (i : nat) :
  In i (filter_refs p k rs) <->
  k <= i /\ exists r, rs !! (i - k) = Some r /\ p r = true.
Proof.
  revert k. induction rs as [|r rs IH]; intros k.
  - cbn. split; [tauto|]. intros (_ & r & H & _). discriminate H.
  - cbn [filter_refs].
    assert (Hrec : In i (filter_refs p (S k) rs) <->
                   k < i /\ exists r', (r :: rs) !! (i - k) = Some r' /\ p r' = true).
    { rewrite IH. split.
      - intros (Hle & r' & Hl & Hp). split; [lia|]. exists r'. split; [|exact Hp].
        replace (i - k) with (S (i - S k)) by lia. exact Hl.
      - intros (Hlt & r' & Hl & Hp). split; [lia|]. exists r'. split; [|exact Hp].
        replace (i - k) with (S (i - S k)) in Hl by lia. exact Hl. }
    destruct (p r) eqn:Hp.
    + cbn [In]. rewrite Hrec. split.
      * intros [<- | (Hlt & H)].
        -- split; [lia|]. exists r. rewrite Nat.sub_diag. now split.
        -- split; [lia | exact H].
      * intros (Hle & H). destruct (decide (k = i)) as [->|Hne]; [now left|].
        right. split; [lia | exact H].
    + rewrite Hrec. split.
      * intros (Hlt & H). split; [lia | exact H].
      * intros (Hle & r' & Hl & Hp'). destruct (decide (k = i)) as [->|Hne].
        -- rewrite Nat.sub_diag in Hl. cbn in Hl. congruence.
        -- split; [lia|]. eauto.
Qed.

Lemma NoDup_filter_refs (p : GitRepo -> bool) (k : nat) (rs : list GitRepo) :
  NoDup (filter_refs p k rs).
Proof.
  revert k. induction rs as [|r rs IH]; intros k; [constructor|].
  cbn [filter_refs]. destruct (p r); [|apply IH].
  apply NoDup_cons. split; [|apply IH].
  rewrite list_elem_of_In, In_filter_refs. lia.
Qed.

(** The modal keeps the checkbox states as long as the array. *)
Lemma length_checked_change (i : nat) (rs : list GitRepo) (m : RepoSelectionModal) :
  length (checked (on_change_repo i rs m)) = length (checked m).
Proof.
  unfold on_change_repo. destruct (rs !! i), (checked m !! i); cbn; try reflexivity.
  apply length_insert.
Qed.

Lemma length_checked_after (rs : list GitRepo) (last : list string) (clicks : list nat) :
  length (checked (modal_after rs last clicks)) = length rs.
Proof.
  unfold modal_after.
  assert (H : length (checked (open_RepoSelectionModal rs last)) = length rs)
    by apply length_map.
  revert H. generalize (open_RepoSelectionModal rs last).
  induction clicks as [|i clicks IH]; intros m H; [exact H|].
  cbn [fold_left]. apply IH. now rewrite length_checked_change.
Qed.

Lemma selection_matches_open (rs : list GitRepo) (last : list string) :
  selection_matches rs (open_RepoSelectionModal rs last).
Proof.
  split; [apply NoDup_filter_refs|].
  intros i. cbn [selectedRepos checked open_RepoSelectionModal].
  rewrite In_filter_refs, Nat.sub_0_r, list_lookup_fmap.
  split.
  - intros (_ & r & -> & Hp). cbn. now rewrite Hp.
  - destruct (rs !! i) as [r|]; cbn; [|discriminate].
    intros [= Hp]. split; [lia|]. eauto.
Qed.

Lemma name_lookup_inj (rs : list GitRepo) (i j : nat) (ri rj : GitRepo) :
  NoDup (map name rs) ->
  rs !! i = Some ri -> rs !! j = Some rj -> name ri = name rj -> i = j.
Proof.
  intros Hnd Hi Hj Hn.
  apply (NoDup_lookup (map name rs) i j (name ri)); [exact Hnd| |].
  - now rewrite list_lookup_fmap, Hi.
  - now rewrite list_lookup_fmap, Hj, Hn.
Qed.

Lemma selection_matches_change (rs : list GitRepo) (m : RepoSelectionModal) (i : nat) :
  NoDup (map name rs) -> length (checked m) = length rs ->
  selection_matches rs m -> selection_matches rs (on_change_repo i rs m).
Proof.
  intros Hnames Hlen [Hnd Hin]. unfold on_change_repo.
  destruct (rs !! i) as [repo|] eqn:Hi; [|now split].
  destruct (checked m !! i) as [old|] eqn:Hc; [|now split].
  assert (Hlt : i < length (checked m)) by (eapply lookup_lt_Some; eauto).
  unfold selection_matches. destruct old; cbn [negb selectedRepos checked].
  - (* unchecked: the references with that name are dropped *)
    split; [now apply NoDup_ListNoDup, List.NoDup_filter, NoDup_ListNoDup|].
    intros j. rewrite filter_In, Hin. split.
    + intros (Hj & Hf). destruct (decide (i = j)) as [<-|Hne].
      * rewrite Hi, String.eqb_refl in Hf. discriminate Hf.
      * now rewrite list_lookup_insert_ne.
    + intros Hj. destruct (decide (i = j)) as [<-|Hne].
      * rewrite list_lookup_insert_eq in Hj by exact Hlt. discriminate Hj.
      * rewrite list_lookup_insert_ne in Hj by exact Hne. split; [exact Hj|].
        destruct (rs !! j) as [rj|] eqn:Hrj.
        -- destruct (String.eqb (name rj) (name repo)) eqn:En; [|reflexivity].
           apply String.eqb_eq in En. exfalso. apply Hne. symmetry.
           eapply name_lookup_inj; eauto.
        -- apply lookup_lt_Some in Hj. apply lookup_ge_None in Hrj. lia.
  - (* checked: the reference is pushed *)
    assert (Hfresh : ~ In i (selectedRepos m)) by (rewrite Hin, Hc; discriminate).
    split.
    + apply NoDup_app. split; [exact Hnd|]. split; [|apply NoDup_singleton].
      intros x Hx Hx'. apply list_elem_of_In in Hx.
      apply list_elem_of_singleton in Hx'. now subst.
    + intros j. rewrite in_app_iff, Hin. cbn [In]. split.
      * intros [Hj | [<- | []]].
        -- destruct (decide (i = j)) as [<-|Hne]; [congruence|].
           now rewrite list_lookup_insert_ne.
        -- now apply list_lookup_insert_eq.
      * intros Hj. destruct (decide (i = j)) as [<-|Hne]; [now right; left|].
        left. now rewrite list_lookup_insert_ne in Hj.
Qed.

Lemma selection_matches_after (rs : list GitRepo) (last : list string) (clicks : list nat) :
  NoDup (map name rs) -> selection_matches rs (modal_after rs last clicks).
Proof.
  intros Hnames. induction clicks as [|i clicks IH] using rev_ind.
  - apply selection_matches_open.
  - unfold modal_after in *. rewrite fold_left_app. cbn [fold_left].
    apply selection_matches_change; [exact Hnames | | exact IH].
    apply length_checked_after.
Qed.

Lemma modal_after_snoc (rs : list GitRepo) (last : list string) (clicks : list nat) (i : nat) :
  modal_after rs last (clicks ++ [i]) = on_change_repo i rs (modal_after rs last clicks).
Proof. unfold modal_after. now rewrite fold_left_app. Qed.

Lemma deref_filter (rs : list GitRepo) (q : GitRepo -> bool) (refs : list nat) :
  deref rs (List.filter (fun r => match rs !! r with
                                  | Some r' => q r'
                                  | None => false
                                  end) refs) =
  List.filter q (deref rs refs).
Proof.
  induction refs as [|i refs IH]; [reflexivity|].
  cbn [List.filter]. rewrite deref_cons.
  destruct (rs !! i) as [r|] eqn:Hi; [|exact IH].
  destruct (q r) eqn:Hq; cbn [List.filter]; rewrite ?Hq.
  - now rewrite deref_cons, Hi, IH.
  - exact IH.
Qed.

(** ** The insertion workflow *)

Section Workflow.

Variable execSync : string -> completion string.

(** The queries touch nothing but the console. *)
Lemma logged_all_frame (date : string) (selected : list GitRepo) (w : World) :
  settings (logged_all execSync date selected w) = settings w /\
  saved (logged_all execSync date selected w) = saved w /\
  notices (logged_all execSync date selected w) = notices w /\
  inserted (logged_all execSync date selected w) = inserted w.
Proof.
  revert w. induction selected as [|repo rest IH]; intros w; [now repeat split|].
  cbn [logged_all]. destruct (execSync _); [apply IH|].
  destruct (IH (logged e w)) as (-> & -> & -> & ->). now repeat split.
Qed.

Lemma logged_all_console (date : string) (selected : list GitRepo) (w1 w2 : World) :
  console w1 = console w2 ->
  console (logged_all execSync date selected w1) =
  console (logged_all execSync date selected w2).
Proof.
  revert w1 w2. induction selected as [|repo rest IH]; intros w1 w2 H; [exact H|].
  cbn [logged_all]. destruct (execSync _); apply IH; [exact H|].
  cbn. now rewrite H.
Qed.

(** What the 'Insert Git Log' button does. *)
Lemma step_submit (date : string) (m : RepoSelectionModal) (w : World) :
  let sel := deref (repos (settings w)) (selectedRepos m) in
  let s' := {| repos := repos (settings w); lastSelectedRepos := map name sel |} in
  step execSync (AwaitRepos date m, w) ClickInsert =
    (Completed,
     if (0 <? length (selectedRepos m))%nat then
       {| settings := s'; saved := Some s'; notices := notices w;
          inserted := inserted w ++ [blocks_text execSync date sel];
          console := console (logged_all execSync date sel w) |}
     else
       {| settings := s'; saved := Some s';
          notices := notices w ++ ["No repositories selected. Git log not inserted."];
          inserted := inserted w; console := console w |}).
Proof.
  intros sel s'. cbn [step]. unfold on_submit_repos, bind, saveSettings, after_repos.
  cbn [settings set_settings repos]. fold sel. fold s'.
  destruct (0 <? length (selectedRepos m))%nat; [|reflexivity].
  unfold bind. rewrite for_of_text. cbn [settle]. rewrite app_empty.
  unfold replaceSelection.
  match goal with
  | |- context [logged_all execSync date sel ?w1] =>
      destruct (logged_all_frame date sel w1) as (-> & -> & -> & ->);
      rewrite (logged_all_console date sel w1 w) by reflexivity
  end.
  reflexivity.
Qed.

Lemma run_app (st : Phase * World) (evs1 evs2 : list Event) :
  run execSync st (evs1 ++ evs2) = run execSync (run execSync st evs1) evs2.
Proof. unfold run. apply fold_left_app. Qed.

Lemma run_cons (st : Phase * World) (ev : Event) (evs : list Event) :
  run execSync st (ev :: evs) = run execSync (step execSync st ev) evs.
Proof. reflexivity. Qed.

(** Flipping repository checkboxes changes the modal only. *)
Lemma run_repo_clicks (date : string) (m : RepoSelectionModal) (w : World)
    (clicks : list nat) :
  run execSync (AwaitRepos date m, w) (map ChangeRepo clicks) =
    (AwaitRepos date
       (fold_left (fun m i => on_change_repo i (repos (settings w)) m) clicks m), w).
Proof.
  revert m. induction clicks as [|i clicks IH]; intros m; [reflexivity|].
  cbn [map fold_left]. unfold run in *. cbn [fold_left step]. apply IH.
Qed.

(** Once suspended, the insertion ignores every event. *)
Lemma run_suspended (w : World) (evs : list Event) :
  run execSync (Suspended, w) evs = (Suspended, w).
Proof. induction evs as [|ev evs IH]; [reflexivity | exact IH]. Qed.

(** No step rejects: the only call that can throw is inside the
    [try] of [getGitLog]. *)
Lemma step_not_rejected (st : Phase * World) (ev : Event) :
  is_rejected (fst st) = false -> is_rejected (fst (step execSync st ev)) = false.
Proof.
  destruct st as [ph w]. intros H.
  destruct ph as [|date m| | |e], ev; try exact H; try reflexivity.
  - cbn [step]. unfold after_date. now destruct (str_truthy _).
  - cbn [step]. now destruct (on_change_allBranches i m w).
  - now rewrite step_submit.
Qed.

Lemma run_not_rejected (st : Phase * World) (evs : list Event) :
  is_rejected (fst st) = false -> is_rejected (fst (run execSync st evs)) = false.
Proof.
  revert st. induction evs as [|ev evs IH]; intros st H; [exact H|].
  apply IH, step_not_rejected, H.
Qed.

Lemma alter_allBranches_names (v : bool) (i : nat) (rs : list GitRepo) :
  map name (alter (set_allBranches v) i rs) = map name rs /\
  map path (alter (set_allBranches v) i rs) = map path rs.
Proof.
  revert i. induction rs as [|r rs IH]; intros i; [now split|].
  destruct i as [|i]; cbn; [now split|].
  destruct (IH i) as [Hn Hp]. split; f_equal; assumption.
Qed.

Lemma toggle_frame_step (date : string) (m : RepoSelectionModal) (w : World) (ev : Event) :
  is_toggle ev = true ->
  exists m', fst (step execSync (AwaitRepos date m, w) ev) = AwaitRepos date m' /\
             toggle_frame w (snd (step execSync (AwaitRepos date m, w) ev)).
Proof.
  destruct ev; try discriminate; intros _.
  - eexists. split; [reflexivity|]. now repeat split.
  - cbn [step]. unfold on_change_allBranches.
    destruct (allBranchesChecked m !! i).
    + eexists. split; [reflexivity|]. cbn.
      destruct (alter_allBranches_names (negb b) i (repos (settings w))) as [Hn Hp].
      now repeat split.
    + eexists. split; [reflexivity|]. now repeat split.
Qed.

Lemma toggle_frame_run (date : string) (evs : list Event) (m : RepoSelectionModal) (w : World) :
  forallb is_toggle evs = true ->
  exists m', fst (run execSync (AwaitRepos date m, w) evs) = AwaitRepos date m' /\
             toggle_frame w (snd (run execSync (AwaitRepos date m, w) evs)).
Proof.
  revert m w. induction evs as [|ev evs IH]; intros m w H.
  - exists m. split; [reflexivity|]. now repeat split.
  - cbn in H. apply andb_prop in H as [Hev Hevs].
    destruct (toggle_frame_step date m w ev Hev) as (m1 & Hph & Hfr).
    rewrite run_cons.
    destruct (step execSync (AwaitRepos date m, w) ev) as [ph1 w1] eqn:E.
    cbn [fst snd] in *. subst ph1.
    destruct (IH m1 w1 Hevs) as (m' & Hph' & Hfr').
    exists m'. split; [exact Hph'|].
    destruct Hfr as (a1 & a2 & a3 & a4 & a5 & a6).
    destruct Hfr' as (b1 & b2 & b3 & b4 & b5 & b6).
    unfold toggle_frame. rewrite b1, b2, b3, b4, b5, b6. now repeat split.
Qed.

End Workflow.

Lemma in_display_order_map (p : GitRepo -> bool) (rs : list GitRepo) :
  in_display_order rs (map p rs) = List.filter p rs.
Proof.
  induction rs as [|r rs IH]; [reflexivity|].
  cbn. rewrite IH. reflexivity.
Qed.

Lemma submitted_no_clicks (rs : list GitRepo) (last : list string) :
  submitted rs last [] = List.filter (fun r => includes last (name r)) rs.
Proof.
  unfold submitted, modal_after. cbn [fold_left selectedRepos open_RepoSelectionModal].
  exact (deref_filter_refs _ [] rs).
Qed.

Section Claims.

Variable execSync : string -> completion string.

(** C3 (amended). When the dialog opens, the checked boxes are those of
    the repositories named in [lastSelectedNames], and submitting without
    a toggle returns them in the display order of [repositories]; with
    [{A, C}] and [[A, B, C]] the checked boxes are those of [A] and [C]
    and the result is [[A, C]].  After any toggles the result lists
    exactly the checked repositories (names being unique); a repository
    the user checks is put at the end of the result, after those already
    in it, and unchecking one removes it and keeps the order of the
    others.  The names of the result, in that order, become
    [lastSelectedRepos]. *)
Theorem selection_result_order
    (rs : list GitRepo) (last : list string) (clicks : list nat) :
  checked (open_RepoSelectionModal rs last) =
    map (fun r => includes last (name r)) rs /\
  submitted rs last [] =
    in_display_order rs (checked (open_RepoSelectionModal rs last)) /\
  (NoDup (map name rs) ->
     forall i, In i (selectedRepos (modal_after rs last clicks)) <->
               checked (modal_after rs last clicks) !! i = Some true) /\
  (forall i repo,
     rs !! i = Some repo ->
     checked (modal_after rs last clicks) !! i = Some false ->
     submitted rs last (clicks ++ [i]) = submitted rs last clicks ++ [repo]) /\
  (forall i repo,
     rs !! i = Some repo ->
     checked (modal_after rs last clicks) !! i = Some true ->
     submitted rs last (clicks ++ [i]) =
       List.filter (fun r => negb (String.eqb (name r) (name repo)))
                   (submitted rs last clicks)) /\
  (forall date w,
     repos (settings w) = rs ->
     lastSelectedRepos
       (settings (snd (run execSync
                         (AwaitRepos date (open_RepoSelectionModal rs last), w)
                         (map ChangeRepo clicks ++ [ClickInsert])))) =
       map name (submitted rs last clicks)) /\
  (forall a b c : GitRepo,
     name b <> name a -> name b <> name c ->
     checked (open_RepoSelectionModal [a; b; c] [name a; name c]) =
       [true; false; true] /\
     submitted [a; b; c] [name a; name c] [] = [a; c]).
Proof.
  split; [reflexivity|].
  split; [rewrite submitted_no_clicks; symmetry; apply in_display_order_map|].
  split; [intros Hn; apply (selection_matches_after rs last clicks Hn)|].
  split; [|split; [|split]].
  - intros i repo Hi Hc. unfold submitted. rewrite modal_after_snoc.
    unfold on_change_repo. rewrite Hi, Hc. cbn [negb selectedRepos].
    rewrite deref_app, deref_cons, Hi. reflexivity.
  - intros i repo Hi Hc. unfold submitted. rewrite modal_after_snoc.
    unfold on_change_repo. rewrite Hi, Hc. cbn [negb selectedRepos].
    apply (deref_filter rs (fun r => negb (String.eqb (name r) (name repo)))).
  - intros date w Hrs. rewrite run_app, run_repo_clicks, Hrs.
    cbn [run fold_left]. rewrite step_submit. cbn [snd]. rewrite Hrs.
    fold (modal_after rs last clicks). fold (submitted rs last clicks).
    now destruct (0 <? _)%nat.
  - intros a b c Hba Hbc.
    assert (Ea : includes [name a; name c] (name a) = true)
      by (cbn; now rewrite String.eqb_refl).
    assert (Ec : includes [name a; name c] (name c) = true)
      by (cbn; now rewrite String.eqb_refl, orb_true_r).
    assert (Eb : includes [name a; name c] (name b) = false).
    { cbn. apply String.eqb_neq in Hba, Hbc. now rewrite Hba, Hbc. }
    split.
    + cbn [checked open_RepoSelectionModal map]. now rewrite Ea, Eb, Ec.
    + rewrite submitted_no_clicks. cbn [List.filter]. now rewrite Ea, Eb, Ec.
Qed.

(** C6 (amended). Dismissing either modal without its button leaves the
    insertion suspended for good: nothing is resolved, no notice is
    shown, no text is inserted, the world is as it was, and no exception
    surfaces.  The notices belong to submissions: the date prompt
    submitted with an empty value shows
    [No date provided. Git log not inserted.], the repository dialog
    submitted with nothing selected shows
    [No repositories selected. Git log not inserted.], and neither
    inserts text.  No sequence of events makes the insertion reject. *)
Theorem close_without_submit_suspends
    (date : string) (m : RepoSelectionModal) (w : World) (evs : list Event) :
  run execSync (AwaitDate, w) (CloseModal :: evs) = (Suspended, w) /\
  run execSync (AwaitRepos date m, w) (CloseModal :: evs) = (Suspended, w) /\
  (forall basename,
     isDailyNote (Some (default "" basename)) = false ->
     run execSync (insertGitLog basename w) (CloseModal :: evs) = (Suspended, w)) /\
  step execSync (AwaitDate, w) (ClickContinue "") =
    (Completed,
     {| settings := settings w; saved := saved w;
        notices := notices w ++ ["No date provided. Git log not inserted."];
        inserted := inserted w; console := console w |}) /\
  (selectedRepos m = [] ->
     fst (step execSync (AwaitRepos date m, w) ClickInsert) = Completed /\
     notices (snd (step execSync (AwaitRepos date m, w) ClickInsert)) =
       notices w ++ ["No repositories selected. Git log not inserted."] /\
     inserted (snd (step execSync (AwaitRepos date m, w) ClickInsert)) =
       inserted w) /\
  (forall basename,
     is_rejected (fst (run execSync (insertGitLog basename w) evs)) = false).
Proof.
  split; [rewrite run_cons; apply run_suspended|].
  split; [rewrite run_cons; apply run_suspended|].
  split; [|split; [reflexivity|split]].
  - intros basename Hname. unfold insertGitLog. rewrite Hname.
    rewrite run_cons. apply run_suspended.
  - intros Hsel. rewrite step_submit. cbn zeta. rewrite Hsel. now repeat split.
  - intros basename. apply run_not_rejected.
    unfold insertGitLog. destruct (isDailyNote _); [|reflexivity].
    unfold after_date. destruct (extractDateFromFileName _); [|reflexivity].
    now destruct (str_truthy _).
Qed.

(** C7 (amended). While the dialog is open nothing is persisted: no
    sequence of toggles changes the saved blob, [lastSelectedRepos], the
    notices or the editor.  The 'all branches' toggle of a repository
    writes its [allBranches] field in the in-memory settings at once, not
    at submission, so dismissing the dialog afterwards keeps the changed
    field; submission then saves the settings as they are. *)
Theorem allBranches_toggle_is_immediate
    (date : string) (m : RepoSelectionModal) (w : World) (evs : list Event) :
  (forallb is_toggle evs = true ->
     toggle_frame w (snd (run execSync (AwaitRepos date m, w) evs))) /\
  (forall i repo old,
     repos (settings w) !! i = Some repo ->
     allBranchesChecked m !! i = Some old ->
     repos (settings (snd (step execSync (AwaitRepos date m, w)
                             (ChangeAllBranches i)))) !! i =
       Some (set_allBranches (negb old) repo) /\
     repos (settings (snd (run execSync (AwaitRepos date m, w)
                             [ChangeAllBranches i; CloseModal]))) !! i =
       Some (set_allBranches (negb old) repo) /\
     saved (snd (run execSync (AwaitRepos date m, w)
                   [ChangeAllBranches i; CloseModal])) = saved w) /\
  (forallb is_toggle evs = true ->
     saved (snd (run execSync (AwaitRepos date m, w) (evs ++ [ClickInsert]))) =
       Some (settings (snd (run execSync (AwaitRepos date m, w)
                              (evs ++ [ClickInsert])))) /\
     repos (settings (snd (run execSync (AwaitRepos date m, w)
                             (evs ++ [ClickInsert])))) =
       repos (settings (snd (run execSync (AwaitRepos date m, w) evs)))).
Proof.
  split; [|split].
  - intros H. now destruct (toggle_frame_run execSync date evs m w H) as (_ & _ & Hf).
  - intros i repo old Hi Ho.
    assert (E : step execSync (AwaitRepos date m, w) (ChangeAllBranches i) =
                (AwaitRepos date
                   {| modal_lastSelectedRepos := modal_lastSelectedRepos m;
                      selectedRepos := selectedRepos m;
                      checked := checked m;
                      allBranchesChecked := <[i := negb old]> (allBranchesChecked m) |},
                 set_settings
                   {| repos := alter (set_allBranches (negb old)) i (repos (settings w));
                      lastSelectedRepos := lastSelectedRepos (settings w) |} w)).
    { cbn [step]. unfold on_change_allBranches. now rewrite Ho. }
    rewrite !run_cons, E. cbn [run fold_left step snd settings set_settings repos saved].
    rewrite list_lookup_alter, Hi. rewrite decide_True by reflexivity.
    now repeat split.
  - intros H. destruct (toggle_frame_run execSync date evs m w H) as (m' & Hph & _).
    rewrite run_app.
    destruct (run execSync (AwaitRepos date m, w) evs) as [ph w'] eqn:E.
    cbn [fst] in Hph. subst ph. cbn [run fold_left]. rewrite step_submit.
    cbn [snd]. now destruct (0 <? _)%nat.
Qed.

(** C8. An empty selection formats to the empty string for every date, and
    the command then inserts nothing and reports
    [No repositories selected. Git log not inserted.]. *)
Theorem empty_selection_inserts_nothing
    (date : string) (m : RepoSelectionModal) (w : World) :
  for_of execSync date [] "" w = (Normal "", w) /\
  after_repos execSync date [] w =
    (Normal tt,
     {| settings := settings w; saved := saved w;
        notices := notices w ++ ["No repositories selected. Git log not inserted."];
        inserted := inserted w; console := console w |}) /\
  (selectedRepos m = [] ->
     fst (step execSync (AwaitRepos date m, w) ClickInsert) = Completed /\
     notices (snd (step execSync (AwaitRepos date m, w) ClickInsert)) =
       notices w ++ ["No repositories selected. Git log not inserted."] /\
     inserted (snd (step execSync (AwaitRepos date m, w) ClickInsert)) = inserted w /\
     console (snd (step execSync (AwaitRepos date m, w) ClickInsert)) = console w).
Proof.
  split; [reflexivity|]. split; [reflexivity|].
  intros H. rewrite step_submit. cbn zeta. rewrite H. now repeat split.
Qed.

End Claims.

(** ** Concrete instances *)

Lemma sample_names_NoDup : NoDup (map name [Sample.A; Sample.B; Sample.C]).
Proof.
  apply NoDup_ListNoDup. cbn.
  repeat (constructor; [cbn; intuition discriminate|]). constructor.
Qed.

Lemma selection_result_order_witness :
  submitted [Sample.A; Sample.B; Sample.C] ["A"; "C"] [] = [Sample.A; Sample.C] /\
  submitted [Sample.A; Sample.B; Sample.C] ["A"; "C"] [1] =
    [Sample.A; Sample.C; Sample.B] /\
  submitted [Sample.A; Sample.B; Sample.C] ["A"; "C"] [0] = [Sample.C] /\
  In 2 (selectedRepos (modal_after [Sample.A; Sample.B; Sample.C] ["A"; "C"] [])) /\
  lastSelectedRepos
    (settings (snd (run Sample.execSync
                      (AwaitRepos "2024-03-15"
                         (open_RepoSelectionModal [Sample.A; Sample.B; Sample.C] ["A"; "C"]),
                       Sample.world [Sample.A; Sample.B; Sample.C] ["A"; "C"])
                      [ClickInsert]))) = ["A"; "C"].
Proof.
  destruct (selection_result_order Sample.execSync
              [Sample.A; Sample.B; Sample.C] ["A"; "C"] [])
    as (_ & _ & Hin & Hon & Hoff & Hrun & Hacb).
  split; [|split; [|split; [|split]]].
  - apply (Hacb Sample.A Sample.B Sample.C); discriminate.
  - exact (Hon 1 Sample.B eq_refl eq_refl).
  - exact (Hoff 0 Sample.A eq_refl eq_refl).
  - apply (Hin sample_names_NoDup 2). reflexivity.
  - exact (Hrun "2024-03-15"
             (Sample.world [Sample.A; Sample.B; Sample.C] ["A"; "C"]) eq_refl).
Defined.

(** C3 as stated fails: with nothing pre-checked, checking [C] and then
    [A] returns [[C; A]], the order of the clicks, not the display order
    [[A; C]]. *)
Lemma selection_result_in_click_order :
  submitted [Sample.A; Sample.B; Sample.C] [] [2; 0] = [Sample.C; Sample.A] /\
  submitted [Sample.A; Sample.B; Sample.C] [] [2; 0] <>
    in_display_order [Sample.A; Sample.B; Sample.C]
      (checked (modal_after [Sample.A; Sample.B; Sample.C] [] [2; 0])).
Proof. split; [reflexivity|]. vm_compute. discriminate. Qed.

Lemma close_without_submit_suspends_witness :
  run Sample.execSync
      (insertGitLog (Some "meeting notes") (Sample.world [Sample.A] ["A"]))
      [CloseModal; ClickContinue "2024-03-15"; ClickInsert] =
    (Suspended, Sample.world [Sample.A] ["A"]) /\
  notices (snd (step Sample.execSync
                  (AwaitRepos "2024-03-15" (open_RepoSelectionModal [Sample.A] []),
                   Sample.world [Sample.A] [])
                  ClickInsert)) =
    ["No repositories selected. Git log not inserted."].
Proof.
  destruct (close_without_submit_suspends Sample.execSync "2024-03-15"
              (open_RepoSelectionModal [Sample.A] []) (Sample.world [Sample.A] ["A"])
              [ClickContinue "2024-03-15"; ClickInsert])
    as (_ & _ & Hclose & _).
  destruct (close_without_submit_suspends Sample.execSync "2024-03-15"
              (open_RepoSelectionModal [Sample.A] []) (Sample.world [Sample.A] [])
              [])
    as (_ & _ & _ & _ & Hempty & _).
  split.
  - apply (Hclose (Some "meeting notes")). reflexivity.
  - apply Hempty. reflexivity.
Defined.

(** C6 as stated fails: dismissing the date prompt, or the repository
    dialog, shows no notice and returns no selection; the insertion stays
    suspended. *)
Lemma closed_modal_shows_no_notice :
  ~ In "No date provided. Git log not inserted."
       (notices (snd (run Sample.execSync
                        (insertGitLog (Some "meeting notes")
                           (Sample.world [Sample.A] ["A"]))
                        [CloseModal]))) /\
  ~ In "No repositories selected. Git log not inserted."
       (notices (snd (run Sample.execSync
                        (insertGitLog (Some "2024-03-15")
                           (Sample.world [Sample.A] ["A"]))
                        [CloseModal]))) /\
  fst (run Sample.execSync
         (insertGitLog (Some "2024-03-15") (Sample.world [Sample.A] ["A"]))
         [CloseModal]) = Suspended.
Proof. split; [|split]; [intros [] | intros [] | reflexivity]. Qed.

Lemma allBranches_toggle_is_immediate_witness :
  repos (settings (snd (run Sample.execSync
                          (AwaitRepos "2024-03-15"
                             (open_RepoSelectionModal [Sample.A; Sample.B] []),
                           Sample.world [Sample.A; Sample.B] [])
                          [ChangeAllBranches 0; CloseModal]))) !! 0 =
    Some {| name := "A"; path := "/a"; allBranches := Some true |} /\
  saved (snd (run Sample.execSync
                (AwaitRepos "2024-03-15"
                   (open_RepoSelectionModal [Sample.A; Sample.B] []),
                 Sample.world [Sample.A; Sample.B] [])
                [ChangeRepo 1; ChangeAllBranches 0])) = None /\
  saved (snd (run Sample.execSync
                (AwaitRepos "2024-03-15"
                   (open_RepoSelectionModal [Sample.A; Sample.B] []),
                 Sample.world [Sample.A; Sample.B] [])
                ([ChangeRepo 1; ChangeAllBranches 0] ++ [ClickInsert]))) =
    Some {| repos := [ {| name := "A"; path := "/a"; allBranches := Some true |};
                       Sample.B ];
            lastSelectedRepos := ["B"] |}.
Proof.
  destruct (allBranches_toggle_is_immediate Sample.execSync "2024-03-15"
              (open_RepoSelectionModal [Sample.A; Sample.B] [])
              (Sample.world [Sample.A; Sample.B] [])
              [ChangeRepo 1; ChangeAllBranches 0])
    as (Hframe & Hnow & Hsave).
  split; [|split].
  - apply (Hnow 0 Sample.A false); reflexivity.
  - apply (Hframe eq_refl).
  - destruct (Hsave eq_refl) as [-> _]. reflexivity.
Defined.

(** C7 as stated fails: after an 'all branches' toggle, dismissing the
    dialog leaves the in-memory settings changed. *)
Lemma cancelled_dialog_changes_settings :
  settings (snd (run Sample.execSync
                   (AwaitRepos "2024-03-15"
                      (open_RepoSelectionModal [Sample.A; Sample.B] []),
                    Sample.world [Sample.A; Sample.B] [])
                   [ChangeAllBranches 0; CloseModal])) <>
  settings (Sample.world [Sample.A; Sample.B] []).
Proof. vm_compute. discriminate. Qed.

Lemma empty_selection_inserts_nothing_witness :
  notices (snd (step Sample.execSync
                  (AwaitRepos "2024-03-15"
                     (open_RepoSelectionModal [Sample.A; Sample.B] ["gone"]),
                   Sample.world [Sample.A; Sample.B] ["gone"])
                  ClickInsert)) =
    ["No repositories selected. Git log not inserted."] /\
  inserted (snd (step Sample.execSync
                   (AwaitRepos "2024-03-15"
                      (open_RepoSelectionModal [Sample.A; Sample.B] ["gone"]),
                    Sample.world [Sample.A; Sample.B] ["gone"])
                   ClickInsert)) = [].
Proof.
  destruct (empty_selection_inserts_nothing Sample.execSync "2024-03-15"
              (open_RepoSelectionModal [Sample.A; Sample.B] ["gone"])
              (Sample.world [Sample.A; Sample.B] ["gone"]))
    as (_ & _ & Hempty).
  destruct (Hempty eq_refl) as (_ & Hn & Hi & _).
  split; [exact Hn | exact Hi].
Defined.

(** ** Further properties of the insertion workflow *)

(** On strings the daily-note check and the extraction agree. *)
Lemma extractDate_of_shape (s : string) :
  extractDateFromFileName (Some s) = if date_shape s then Some s else None.
Proof.
  unfold extractDateFromFileName, opt_match. rewrite String_match_shape.
  destruct (date_shape s) eqn:E; [|reflexivity].
  destruct s; [discriminate E | reflexivity].
Qed.

Lemma isDailyNote_of_shape (s : string) : isDailyNote (Some s) = date_shape s.
Proof.
  unfold isDailyNote, opt_match. rewrite String_match_shape.
  now destruct (date_shape s).
Qed.

Lemma date_shape_nonempty (s : string) : date_shape s = true -> str_truthy s = true.
Proof. destruct s; [discriminate | reflexivity]. Qed.

(** [insertGitLog] up to its first suspension, by the shape of the name. *)
Lemma insertGitLog_cases (basename : option string) (w : World) :
  insertGitLog basename w =
  if date_shape (default "" basename) then
    (AwaitRepos (default "" basename)
       (open_RepoSelectionModal (repos (settings w))
          (lastSelectedRepos (settings w))), w)
  else (AwaitDate, w).
Proof.
  unfold insertGitLog. rewrite isDailyNote_of_shape, extractDate_of_shape.
  destruct (date_shape (default "" basename)) eqn:E; [|reflexivity].
  unfold after_date. now rewrite (date_shape_nonempty _ E).
Qed.

Section MoreWorkflow.

Variable execSync : string -> completion string.

(** X1. Starting an insertion changes nothing and shows nothing: when the
    file name is a date in the daily-note pattern the repository dialog
    opens at once with that name as the date, and for every other name,
    and when there is no file, the date prompt opens. *)
Theorem insertGitLog_first_phase (basename : option string) (w : World) :
  snd (insertGitLog basename w) = w /\
  (DatePattern (default "" basename) ->
     fst (insertGitLog basename w) =
       AwaitRepos (default "" basename)
         (open_RepoSelectionModal (repos (settings w))
            (lastSelectedRepos (settings w)))) /\
  (~ DatePattern (default "" basename) ->
     fst (insertGitLog basename w) = AwaitDate) /\
  fst (insertGitLog None w) = AwaitDate.
Proof.
  rewrite !insertGitLog_cases, <- date_shape_pattern.
  destruct (date_shape (default "" basename)) eqn:E.
  - repeat split; try reflexivity. intros H. now contradiction H.
  - repeat split; try reflexivity. discriminate.
Qed.

Lemma after_date_outcome (w0 w : World) (date : option string) :
  notices w = notices w0 -> inserted w = inserted w0 ->
  outcome_ok w0 (fst (after_date date w)) (snd (after_date date w)).
Proof.
  intros Hn Hi. unfold after_date.
  destruct date as [d|]; [destruct (str_truthy d)|]; cbn.
  - now split.
  - left. split; [exact Hi|]. left. now rewrite Hn.
  - left. split; [exact Hi|]. left. now rewrite Hn.
Qed.

Lemma step_outcome (w0 : World) (st : Phase * World) (ev : Event) :
  outcome_ok w0 (fst st) (snd st) ->
  outcome_ok w0 (fst (step execSync st ev)) (snd (step execSync st ev)).
Proof.
  destruct st as [ph w]. cbn [fst snd]. intros H.
  destruct ph as [|date m| | |e]; [| | exact H | exact H | destruct H].
  - destruct H as [Hn Hi]. destruct ev; try (now split).
    cbn [step]. now apply after_date_outcome.
  - destruct H as [Hn Hi]. destruct ev; try (now split).
    + cbn [step]. unfold on_change_allBranches.
      destruct (allBranchesChecked m !! i); now split.
    + rewrite step_submit. cbn [fst snd outcome_ok].
      destruct (0 <? _)%nat; cbn [notices inserted].
      * right. split; [exact Hn|]. eexists. now rewrite Hi.
      * left. split; [exact Hi|]. right. now rewrite Hn.
Qed.

(** X2. Whatever the user does, one insertion ends with at most one
    effect on the document and the notices: while a modal is open or after
    it was dismissed nothing was shown or inserted; once completed, either
    exactly one notice (one of the two texts) was shown and nothing was
    inserted, or exactly one text was inserted and no notice was shown.  It
    never rejects. *)
Theorem insertion_notifies_or_inserts_once
    (basename : option string) (w : World) (evs : list Event) :
  outcome_ok w
    (fst (run execSync (insertGitLog basename w) evs))
    (snd (run execSync (insertGitLog basename w) evs)).
Proof.
  assert (H0 : outcome_ok w (fst (insertGitLog basename w))
                            (snd (insertGitLog basename w))).
  { unfold insertGitLog. destruct (isDailyNote _); [|now split].
    now apply after_date_outcome. }
  revert H0. generalize (insertGitLog basename w).
  induction evs as [|ev evs IH]; intros st H; [exact H|].
  rewrite run_cons. apply IH, step_outcome, H.
Qed.

Lemma step_keeps_names (st : Phase * World) (ev : Event) :
  map name (repos (settings (snd (step execSync st ev)))) =
    map name (repos (settings (snd st))) /\
  map path (repos (settings (snd (step execSync st ev)))) =
    map path (repos (settings (snd st))) /\
  (changes_allBranches ev = false ->
     repos (settings (snd (step execSync st ev))) = repos (settings (snd st))).
Proof.
  destruct st as [ph w]. cbn [snd].
  destruct ph as [|date m| | |e], ev; try (now repeat split).
  - cbn [step]. unfold after_date. destruct (str_truthy value); now repeat split.
  - cbn [step]. unfold on_change_allBranches.
    destruct (allBranchesChecked m !! i); [|now repeat split].
    cbn. destruct (alter_allBranches_names (negb b) i (repos (settings w))) as [Hn Hp].
    repeat split; [exact Hn | exact Hp | discriminate].
  - rewrite step_submit. cbn [snd]. destruct (0 <? _)%nat; now repeat split.
Qed.

(** X3. An insertion never adds, removes, renames or moves a repository:
    after any sequence of events the repositories have the names and paths
    they had, in the same order; and unless an 'all branches' box was
    flipped, the array is unchanged altogether. *)
Theorem insertion_keeps_repositories
    (basename : option string) (w : World) (evs : list Event) :
  map name (repos (settings (snd (run execSync (insertGitLog basename w) evs)))) =
    map name (repos (settings w)) /\
  map path (repos (settings (snd (run execSync (insertGitLog basename w) evs)))) =
    map path (repos (settings w)) /\
  (forallb (fun ev => negb (changes_allBranches ev)) evs = true ->
     repos (settings (snd (run execSync (insertGitLog basename w) evs))) =
       repos (settings w)).
Proof.
  assert (Hw : snd (insertGitLog basename w) = w)
    by (rewrite insertGitLog_cases; now destruct (date_shape _)).
  revert Hw. generalize (insertGitLog basename w). intros st <-.
  revert st. induction evs as [|ev evs IH]; intros st; [now repeat split|].
  rewrite run_cons. destruct (IH (step execSync st ev)) as (Hn & Hp & Hr).
  destruct (step_keeps_names st ev) as (Hn1 & Hp1 & Hr1).
  split; [now rewrite Hn|]. split; [now rewrite Hp|].
  cbn [forallb]. intros H. apply andb_prop in H as [Hev Hevs].
  rewrite Hr by exact Hevs. apply Hr1. now destruct (changes_allBranches ev).
Qed.

End MoreWorkflow.

Lemma insertGitLog_first_phase_witness :
  fst (insertGitLog (Some "2024-03-15")
         (Sample.world [Sample.A; Sample.B] ["B"])) =
    AwaitRepos "2024-03-15" (open_RepoSelectionModal [Sample.A; Sample.B] ["B"]) /\
  fst (insertGitLog (Some "2024-03-15 notes")
         (Sample.world [Sample.A; Sample.B] ["B"])) = AwaitDate.
Proof.
  split.
  - destruct (insertGitLog_first_phase (Some "2024-03-15")
                (Sample.world [Sample.A; Sample.B] ["B"])) as (_ & Hdaily & _).
    apply Hdaily. apply date_shape_pattern. reflexivity.
  - destruct (insertGitLog_first_phase (Some "2024-03-15 notes")
                (Sample.world [Sample.A; Sample.B] ["B"])) as (_ & _ & Hother & _).
    apply Hother. intros H. apply date_shape_pattern in H. discriminate H.
Defined.

Lemma insertion_keeps_repositories_witness :
  repos (settings (snd (run Sample.execSync
                          (insertGitLog (Some "2024-03-15")
                             (Sample.world [Sample.A; Sample.B] ["B"]))
                          [ChangeRepo 0; ChangeRepo 1; ClickInsert]))) =
    [Sample.A; Sample.B].
Proof.
  destruct (insertion_keeps_repositories Sample.execSync (Some "2024-03-15")
              (Sample.world [Sample.A; Sample.B] ["B"])
              [ChangeRepo 0; ChangeRepo 1; ClickInsert]) as (_ & _ & Hsame).
  apply Hsame. reflexivity.
Defined.

(** ** Further properties of the selection dialog *)

Lemma includes_In (l : list string) (x : string) : includes l x = true <-> In x l.
Proof.
  unfold includes. rewrite existsb_exists. split.
  - intros (y & Hy & E). apply String.eqb_eq in E. now subst.
  - intros H. exists x. split; [exact H | apply String.eqb_refl].
Qed.

Lemma filter_refs_ext (p q : GitRepo -> bool) (k : nat) (rs : list GitRepo) :
  (forall r, In r rs -> p r = q r) -> filter_refs p k rs = filter_refs q k rs.
Proof.
  revert k. induction rs as [|r rs IH]; intros k H; [reflexivity|].
  cbn [filter_refs]. rewrite (H r) by now left.
  rewrite (IH (S k)) by (intros r' Hr'; apply H; now right). reflexivity.
Qed.

Lemma deref_In (rs : list GitRepo) (refs : list nat) (r : GitRepo) :
  In r (deref rs refs) -> exists i, In i refs /\ rs !! i = Some r.
Proof.
  induction refs as [|i refs IH]; [intros []|].
  rewrite deref_cons. destruct (rs !! i) as [ri|] eqn:Hi.
  - intros [<- | H].
    + exists i. split; [now left | exact Hi].
    + destruct (IH H) as (j & Hj & Hr). exists j. split; [now right | exact Hr].
  - intros H. destruct (IH H) as (j & Hj & Hr). exists j. split; [now right | exact Hr].
Qed.

Lemma deref_length (rs : list GitRepo) (refs : list nat) :
  Forall (fun i => i < length rs) refs -> length (deref rs refs) = length refs.
Proof.
  induction 1 as [|i refs Hi _ IH]; [reflexivity|].
  rewrite deref_cons. destruct (lookup_lt_is_Some_2 rs i Hi) as [r ->].
  cbn. now rewrite IH.
Qed.

Lemma refs_in_range_change (rs : list GitRepo) (m : RepoSelectionModal) (i : nat) :
  Forall (fun i => i < length rs) (selectedRepos m) ->
  Forall (fun i => i < length rs) (selectedRepos (on_change_repo i rs m)).
Proof.
  intros H. unfold on_change_repo.
  destruct (rs !! i) as [repo|] eqn:Hi; [|exact H].
  destruct (checked m !! i) as [[]|]; cbn [negb selectedRepos]; [| |exact H].
  - apply Forall_forall. intros j Hj. apply list_elem_of_In, filter_In in Hj as [Hj _].
    rewrite Forall_forall in H. apply H. now apply list_elem_of_In.
  - apply Forall_app. split; [exact H|].
    constructor; [|constructor]. eapply lookup_lt_Some, Hi.
Qed.

Lemma refs_in_range_after (rs : list GitRepo) (last : list string) (clicks : list nat) :
  Forall (fun i => i < length rs) (selectedRepos (modal_after rs last clicks)).
Proof.
  induction clicks as [|i clicks IH] using rev_ind.
  - apply Forall_forall. intros i Hi.
    apply list_elem_of_In, In_filter_refs in Hi as (_ & r & Hr & _).
    rewrite Nat.sub_0_r in Hr. eapply lookup_lt_Some, Hr.
  - rewrite modal_after_snoc. now apply refs_in_range_change.
Qed.

(** X4. The selection never holds a dangling reference: after any clicks
    every entry of [selectedRepos] is an object of the [repos] array, so
    the result handed to [onSubmit] has as many repositories as
    [selectedRepos] has entries and each of them is one of the
    repositories shown. *)
Theorem selection_refs_in_range
    (rs : list GitRepo) (last : list string) (clicks : list nat) :
  Forall (fun i => i < length rs) (selectedRepos (modal_after rs last clicks)) /\
  length (submitted rs last clicks) =
    length (selectedRepos (modal_after rs last clicks)) /\
  (forall r, In r (submitted rs last clicks) -> In r rs).
Proof.
  split; [apply refs_in_range_after|].
  split; [apply deref_length, refs_in_range_after|].
  intros r Hr. apply deref_In in Hr as (i & _ & Hi).
  apply list_elem_of_In. eapply list_elem_of_lookup_2, Hi.
Qed.

Lemma selection_refs_in_range_witness :
  In Sample.C [Sample.A; Sample.B; Sample.C].
Proof.
  destruct (selection_refs_in_range [Sample.A; Sample.B; Sample.C] ["C"] [1; 1])
    as (_ & _ & Hin).
  apply Hin. vm_compute. now left.
Defined.

(** X5. Unchecking goes by name: after the box of a checked repository is
    unchecked, no repository of that name is left in the result, also when
    another repository of the same name still has its box checked; the
    other boxes keep their state. *)
Theorem uncheck_removes_every_namesake
    (rs : list GitRepo) (last : list string) (clicks : list nat)
    (i : nat) (repo : GitRepo) :
  rs !! i = Some repo ->
  checked (modal_after rs last clicks) !! i = Some true ->
  (forall r, In r (submitted rs last (clicks ++ [i])) -> name r <> name repo) /\
  (forall j, j <> i ->
     checked (modal_after rs last (clicks ++ [i])) !! j =
     checked (modal_after rs last clicks) !! j).
Proof.
  intros Hi Hc. split.
  - intros r Hr.
    unfold submitted in Hr. rewrite modal_after_snoc in Hr.
    unfold on_change_repo in Hr. rewrite Hi, Hc in Hr. cbn [negb selectedRepos] in Hr.
    rewrite (deref_filter rs (fun r => negb (String.eqb (name r) (name repo)))) in Hr.
    apply filter_In in Hr as [_ Hne].
    apply negb_true_iff, String.eqb_neq in Hne. exact Hne.
  - intros j Hj. rewrite modal_after_snoc. unfold on_change_repo.
    rewrite Hi, Hc. cbn [negb checked]. now apply list_lookup_insert_ne.
Qed.

Lemma uncheck_removes_every_namesake_witness :
  submitted [Sample.A; Sample.B; Sample.A] ["A"] [0] = [] /\
  checked (modal_after [Sample.A; Sample.B; Sample.A] ["A"] [0]) !! 2 = Some true.
Proof.
  destruct (uncheck_removes_every_namesake [Sample.A; Sample.B; Sample.A] ["A"] []
              0 Sample.A eq_refl eq_refl) as [Hgone Hkept].
  split.
  - destruct (submitted [Sample.A; Sample.B; Sample.A] ["A"] ([] ++ [0]))
      as [|r l] eqn:E; [reflexivity|].
    exfalso. apply (Hgone r); [now left|].
    vm_compute in E. discriminate E.
  - change (checked (modal_after [Sample.A; Sample.B; Sample.A] ["A"] ([] ++ [0])) !! 2
            = Some true).
    rewrite (Hkept 2) by discriminate. reflexivity.
Defined.

Section Resubmission.

Variable execSync : string -> completion string.

(** X6. Submitting replaces [lastSelectedRepos] by the names of the result,
    which drops every remembered name that matches no repository; and the
    remembered selection is stable: opening the dialog on the names just
    recorded checks the same boxes and, submitted without a toggle, returns
    the same repositories and records the same names. *)
Theorem resubmission_is_stable (rs : list GitRepo) (last : list string) :
  (forall date w,
     repos (settings w) = rs -> lastSelectedRepos (settings w) = last ->
     lastSelectedRepos
       (settings (snd (run execSync (insertGitLog (Some date) w) [ClickInsert]))) =
       (if date_shape date then map name (submitted rs last []) else last)) /\
  (forall n, In n (map name (submitted rs last [])) ->
     In n last /\ In n (map name rs)) /\
  checked (open_RepoSelectionModal rs (map name (submitted rs last []))) =
    checked (open_RepoSelectionModal rs last) /\
  submitted rs (map name (submitted rs last [])) [] = submitted rs last [].
Proof.
  assert (Hsame : forall r, In r rs ->
            includes (map name (submitted rs last [])) (name r) =
            includes last (name r)).
  { intros r Hr. rewrite submitted_no_clicks.
    destruct (includes last (name r)) eqn:E.
    - apply includes_In, in_map, filter_In. now split.
    - apply not_true_is_false. intros E'.
      apply includes_In, in_map_iff in E' as (r' & Hn & Hr').
      apply filter_In in Hr' as [_ Hp]. rewrite Hn in Hp. congruence. }
  split; [|split; [|split]].
  - intros date w Hrs Hlast. unfold insertGitLog.
    change (default "" (Some date)) with date.
    rewrite isDailyNote_of_shape, extractDate_of_shape.
    destruct (date_shape date) eqn:E; [|exact Hlast].
    unfold after_date. rewrite (date_shape_nonempty _ E), Hrs, Hlast.
    cbn [run fold_left]. rewrite step_submit. cbn [snd]. rewrite Hrs.
    fold (modal_after rs last []). fold (submitted rs last []).
    now destruct (0 <? _)%nat.
  - intros n Hn. rewrite submitted_no_clicks in Hn.
    apply in_map_iff in Hn as (r & <- & Hr). apply filter_In in Hr as [Hr Hp].
    split; [now apply includes_In | now apply in_map].
  - cbn [checked open_RepoSelectionModal]. apply map_ext_in. exact Hsame.
  - unfold submitted, modal_after. cbn [fold_left selectedRepos open_RepoSelectionModal].
    f_equal. apply filter_refs_ext. exact Hsame.
Qed.

End Resubmission.

Lemma resubmission_is_stable_witness :
  lastSelectedRepos
    (settings (snd (run Sample.execSync
                      (insertGitLog (Some "2024-03-15")
                         (Sample.world [Sample.A; Sample.B; Sample.C] ["C"; "gone"; "A"]))
                      [ClickInsert]))) = ["A"; "C"].
Proof.
  destruct (resubmission_is_stable Sample.execSync
              [Sample.A; Sample.B; Sample.C] ["C"; "gone"; "A"]) as (Hrun & _).
  exact (Hrun "2024-03-15"
           (Sample.world [Sample.A; Sample.B; Sample.C] ["C"; "gone"; "A"])
           eq_refl eq_refl).
Defined.

(** ** Further properties of the formatter *)

Lemma rev_onto_app (s acc : string) : rev_onto s acc = rev_str s +:+ acc.
Proof.
  unfold rev_str. revert acc. induction s as [|c s IH]; intros acc; [reflexivity|].
  cbn [rev_onto]. rewrite (IH (String c acc)), (IH (String c "")).
  now rewrite app_assoc_str.
Qed.

Lemma rev_str_app (a b : string) : rev_str (a +:+ b) = rev_str b +:+ rev_str a.
Proof.
  induction a as [|c a IH].
  - rewrite app_empty. now rewrite app_empty_r.
  - rewrite app_cons. unfold rev_str. cbn [rev_onto].
    rewrite !(rev_onto_app _ (String c "")). fold (rev_str (a +:+ b)).
    now rewrite IH, app_assoc_str.
Qed.

Lemma rev_str_involutive (s : string) : rev_str (rev_str s) = s.
Proof.
  induction s as [|c s IH]; [reflexivity|].
  unfold rev_str at 2. cbn [rev_onto]. rewrite rev_onto_app, rev_str_app, IH.
  reflexivity.
Qed.

Section Strip.

Variable p1 : ascii -> bool.
Variable p2 : ascii -> ascii -> bool.
Variable p3 : ascii -> ascii -> ascii -> bool.

(** What is left after stripping does not begin with a stripped
    character, and is the end of the text it came from. *)
Lemma strip_leading_spec (n : nat) (s : string) :
  String.length s <= n ->
  leading p1 p2 p3 (strip_leading p1 p2 p3 s) = false /\
  exists pre, s = pre +:+ strip_leading p1 p2 p3 s.
Proof.
  revert s. induction n as [|n IH]; intros s Hn.
  - destruct s; [|cbn in Hn; lia]. split; [reflexivity | now exists ""].
  - destruct s as [|a s1]; [split; [reflexivity | now exists ""]|].
    cbn [String.length] in Hn. cbn [strip_leading].
    destruct (p1 a) eqn:E1.
    { destruct (IH s1) as [Hl [pre Hpre]]; [lia|]. split; [exact Hl|].
      exists (String a pre). now rewrite app_cons, <- Hpre. }
    destruct s1 as [|b s2].
    { split; [cbn; now rewrite E1 | now exists ""]. }
    cbn [String.length] in Hn. destruct (p2 a b) eqn:E2.
    { destruct (IH s2) as [Hl [pre Hpre]]; [lia|]. split; [exact Hl|].
      exists (String a (String b pre)). now rewrite !app_cons, <- Hpre. }
    destruct s2 as [|c s3].
    { split; [cbn; now rewrite E1, E2 | now exists ""]. }
    cbn [String.length] in Hn. destruct (p3 a b c) eqn:E3.
    { destruct (IH s3) as [Hl [pre Hpre]]; [lia|]. split; [exact Hl|].
      exists (String a (String b (String c pre))). now rewrite !app_cons, <- Hpre. }
    split; [cbn; now rewrite E1, E2, E3 | now exists ""].
Qed.

Lemma leading_app (s u : string) :
  leading p1 p2 p3 s = true -> leading p1 p2 p3 (s +:+ u) = true.
Proof.
  destruct s as [|a [|b [|c s]]]; rewrite ?app_cons, ?app_empty;
    cbn [leading]; try discriminate.
  - rewrite orb_false_r. intros ->. reflexivity.
  - rewrite orb_false_r. intros H. apply orb_prop in H as [-> | ->]; [reflexivity|].
    cbn [orb]. now rewrite orb_true_r.
  - intros H. exact H.
Qed.

End Strip.

(** [trim] leaves nothing or a text without surrounding white space. *)
Lemma trim_tidy (s : string) : trim s = "" \/ tidy (trim s).
Proof.
  destruct (String.eqb (trim s) "") eqn:E; [left; now apply String.eqb_eq|].
  right. apply String.eqb_neq in E. split; [exact E|].
  unfold trim, trimEnd, trimStart in *.
  set (t := strip_leading white_space1 white_space2 white_space3 s) in *.
  set (q2 := fun a b => white_space2 b a) in *.
  set (q3 := fun a b c => white_space3 c b a) in *.
  destruct (strip_leading_spec white_space1 white_space2 white_space3
              (String.length s) s (le_n _)) as [Ht _]. fold t in Ht.
  destruct (strip_leading_spec white_space1 q2 q3
              (String.length (rev_str t)) (rev_str t) (le_n _)) as [Hr [pre Hpre]].
  split.
  - unfold leading_white_space.
    destruct (leading _ _ _ (rev_str (strip_leading white_space1 q2 q3 (rev_str t))))
      eqn:El; [|reflexivity].
    apply (leading_app _ _ _ _ (rev_str pre)) in El.
    rewrite <- rev_str_app, <- Hpre, rev_str_involutive in El. congruence.
  - unfold trailing_white_space. fold q2 q3. now rewrite rev_str_involutive.
Qed.

Lemma tidy_literal (s : string) :
  negb (String.eqb s "") && negb (leading_white_space s) &&
  negb (trailing_white_space s) = true -> tidy s.
Proof.
  intros H. apply andb_prop in H as [H H3]. apply andb_prop in H as [H1 H2].
  apply negb_true_iff in H1, H2, H3. apply String.eqb_neq in H1. now split.
Qed.

Section MoreFormatter.

Variable execSync : string -> completion string.

(** X7. The text [getGitLog] returns is never empty and never begins or
    ends with white space, whatever the query printed or however it
    failed; when the query printed something other than white space, the
    text is that output trimmed. *)
Theorem getGitLog_result_tidy
    (date repoPath : string) (ab : option bool) (w : World) :
  (exists s, fst (getGitLog execSync date repoPath ab w) = Normal s /\ tidy s) /\
  (forall out,
     execSync (gitLogCommand date repoPath (default_false ab)) = Normal out ->
     trim out <> "" ->
     getGitLog execSync date repoPath ab w = (Normal (trim out), w)).
Proof.
  rewrite getGitLog_cases. split.
  - destruct (execSync _) as [out|e]; cbn [fst].
    + destruct (String.eqb (trim out) "") eqn:E.
      * eexists. split; [reflexivity|]. apply tidy_literal; reflexivity.
      * eexists. split; [reflexivity|].
        destruct (trim_tidy out) as [Ht | Ht]; [|exact Ht].
        rewrite Ht in E. discriminate E.
    + eexists. split; [reflexivity|]. apply tidy_literal; reflexivity.
  - intros out -> Hne. apply String.eqb_neq in Hne. now rewrite Hne.
Qed.

Lemma logged_all_failures (date : string) (selected : list GitRepo) (w : World) :
  console (logged_all execSync date selected w) =
  console w ++ map (fun e => ["Error executing git log:"; e])
                   (failures execSync date selected).
Proof.
  revert w. induction selected as [|repo rest IH]; intros w.
  - cbn. now rewrite app_nil_r.
  - cbn [logged_all]. unfold failures. cbn [omap list_omap].
    fold (failures execSync date rest).
    destruct (execSync _) as [out|e].
    + apply IH.
    + rewrite IH. cbn [map logged console_error snd console]. now rewrite <- app_assoc.
Qed.

(** X8. The loop writes one [console.error] entry for each repository
    whose query failed, in the order of the selection, and none for the
    others; it shows no notice, inserts nothing by itself and leaves the
    settings and the saved data alone. *)
Theorem failures_logged_once_each
    (date : string) (selected : list GitRepo) (gitLog : string) (w : World) :
  console (snd (for_of execSync date selected gitLog w)) =
    console w ++ map (fun e => ["Error executing git log:"; e])
                     (failures execSync date selected) /\
  length (failures execSync date selected) <= length selected /\
  settings (snd (for_of execSync date selected gitLog w)) = settings w /\
  saved (snd (for_of execSync date selected gitLog w)) = saved w /\
  notices (snd (for_of execSync date selected gitLog w)) = notices w /\
  inserted (snd (for_of execSync date selected gitLog w)) = inserted w.
Proof.
  rewrite for_of_text. cbn [snd].
  destruct (logged_all_frame execSync date selected w) as (-> & -> & -> & ->).
  split; [apply logged_all_failures|]. split; [|now repeat split].
  unfold failures. induction selected as [|repo rest IH]; [cbn; lia|].
  cbn [omap list_omap]. destruct (execSync _); cbn [length]; lia.
Qed.

Variable execOld : string -> completion string.

Lemma MainTs_getGitLog_cases (date repoPath : string) (w : World) :
  MainTsFormatter.getGitLog execOld date repoPath w =
  match execOld (MainTs.gitLogCommand date repoPath) with
  | Normal out =>
      (Normal (if String.eqb (trim out) ""
               then "No commits found for the specified date."
               else trim out), w)
  | Throw e => (Normal "Error: Unable to retrieve git log.", logged e w)
  end.
Proof.
  unfold MainTsFormatter.getGitLog, try_catch, bind, exec, ret.
  destruct (execOld _); reflexivity.
Qed.

(** X9. The loop of src/main.ts and the loop of the later revision build
    the same text and leave the same world for repositories whose
    [allBranches] is not set to true, provided each query returns to the
    later revision what it returned to the earlier one: the later revision
    changes the command, not the layout of the blocks. *)
Theorem revisions_format_alike
    (date : string) (selected : list GitRepo) (gitLog : string) (w : World) :
  (forall p, execSync (gitLogCommand date p false) =
             execOld (MainTs.gitLogCommand date p)) ->
  Forall (fun repo => allBranches repo <> Some true) selected ->
  for_of execSync date selected gitLog w =
  MainTsFormatter.for_of execOld date selected gitLog w.
Proof.
  intros Hq Hall. revert gitLog w.
  induction Hall as [|repo rest Hrepo _ IH]; intros gitLog w; [reflexivity|].
  assert (Hflag : flag_truthy (allBranches repo) = false /\
                  default_false (allBranches repo) = false).
  { destruct (allBranches repo) as [[]|]; [congruence | now split | now split]. }
  destruct Hflag as [Hf Hd].
  cbn [for_of MainTsFormatter.for_of]. unfold bind.
  unfold append_block, MainTsFormatter.append_block, bind, ret.
  rewrite getGitLog_cases, MainTs_getGitLog_cases, Hd, Hq, Hf.
  destruct (execOld _); rewrite app_empty; apply IH.
Qed.

End MoreFormatter.

Lemma getGitLog_result_tidy_witness :
  getGitLog Sample.execSync "2024-03-15" "/a" None (Sample.world [] []) =
    (Normal "abc123 fix bug", Sample.world [] []) /\
  getGitLog (fun _ => Normal wide_output) "2024-03-15" "/a" None (Sample.world [] []) =
    (Normal "abc123 fix bug", Sample.world [] []).
Proof.
  split.
  - destruct (getGitLog_result_tidy Sample.execSync "2024-03-15" "/a" None
                (Sample.world [] [])) as (_ & Hout).
    apply (Hout ("abc123 fix bug" +:+ LF)); [reflexivity | discriminate].
  - destruct (getGitLog_result_tidy (fun _ => Normal wide_output) "2024-03-15" "/a"
                None (Sample.world [] [])) as (_ & Hout).
    apply (Hout wide_output); [reflexivity | discriminate].
Defined.

Lemma revisions_format_alike_witness :
  for_of Sample.execSync_quiet "2024-03-15" [Sample.A; Sample.B] ""
         (Sample.world [] []) =
  MainTsFormatter.for_of Sample.execSync_quiet "2024-03-15" [Sample.A; Sample.B] ""
         (Sample.world [] []).
Proof.
  apply revisions_format_alike.
  - reflexivity.
  - repeat constructor; discriminate.
Defined.

(** ** Settings *)

Lemma settings_eta (s : GitLogPluginSettings) :
  {| repos := repos s; lastSelectedRepos := lastSelectedRepos s |} = s.
Proof. now destruct s. Qed.

Lemma loadSettings_saved (pl : Plugin) :
  saved (host pl) = Some (settings (host pl)) ->
  settings (host (loadSettings pl)) = settings (host pl) /\
  repos_shared (loadSettings pl) = false.
Proof.
  intros H. unfold loadSettings, loadData. rewrite H. cbn.
  split; [apply settings_eta | reflexivity].
Qed.

Lemma tab_step_frame (w : World) (a : TabAction) :
  lastSelectedRepos (settings (tab_step w a)) = lastSelectedRepos (settings w) /\
  notices (tab_step w a) = notices w /\
  inserted (tab_step w a) = inserted w /\
  console (tab_step w a) = console w /\
  (saved w = Some (settings w) -> saved (tab_step w a) = Some (settings (tab_step w a))).
Proof.
  destruct a as [n p | i v | i]; cbn [tab_step].
  - now repeat split.
  - destruct (repos (settings w) !! i); now repeat split.
  - destruct (repos (settings w) !! i); now repeat split.
Qed.

Lemma tab_actions_frame (pl : Plugin) (actions : list TabAction) :
  lastSelectedRepos (settings (host (tab_actions pl actions))) =
    lastSelectedRepos (settings (host pl)) /\
  notices (host (tab_actions pl actions)) = notices (host pl) /\
  inserted (host (tab_actions pl actions)) = inserted (host pl) /\
  (saved (host pl) = Some (settings (host pl)) ->
     saved (host (tab_actions pl actions)) =
       Some (settings (host (tab_actions pl actions)))).
Proof.
  revert pl. induction actions as [|a actions IH]; intros pl; [now repeat split|].
  cbn [tab_actions fold_left]. fold (tab_actions (tab_action pl a) actions).
  destruct (IH (tab_action pl a)) as (-> & -> & -> & Hs).
  destruct (tab_step_frame (host pl) a) as (Hl & Hn & Hi & _ & Hsv).
  cbn [tab_action write_through host]. repeat split; try assumption.
  intros H. apply Hs. cbn [tab_action write_through host]. now apply Hsv.
Qed.

(** X10. Every action of the settings tab is persisted at once: starting
    from settings that are saved, after any sequence of adding, toggling
    and deleting the saved data are the in-memory settings, and loading
    them gives the same settings, with an array of their own.  No such
    action touches [lastSelectedRepos], shows a notice or inserts text, and
    adding a repository always saves.  With nothing saved, loading hands
    out the defaults as they are at that moment (the empty settings when
    the module was just evaluated) and shares their array: a repository
    added afterwards is added to the defaults as well. *)
Theorem tab_actions_are_persisted (pl : Plugin) (actions : list TabAction) :
  (saved (host pl) = Some (settings (host pl)) ->
     saved (host (tab_actions pl actions)) =
       Some (settings (host (tab_actions pl actions))) /\
     settings (host (loadSettings (tab_actions pl actions))) =
       settings (host (tab_actions pl actions)) /\
     repos_shared (loadSettings (tab_actions pl actions)) = false) /\
  lastSelectedRepos (settings (host (tab_actions pl actions))) =
    lastSelectedRepos (settings (host pl)) /\
  notices (host (tab_actions pl actions)) = notices (host pl) /\
  inserted (host (tab_actions pl actions)) = inserted (host pl) /\
  (forall n p,
     saved (host (tab_action pl (TabAdd n p))) =
       Some (settings (host (tab_action pl (TabAdd n p))))) /\
  (saved (host pl) = None ->
     settings (host (loadSettings pl)) = defaults pl /\
     repos_shared (loadSettings pl) = true /\
     forall n p,
       repos (defaults (tab_action (loadSettings pl) (TabAdd n p))) =
         repos (defaults pl) ++ [{| name := n; path := p; allBranches := None |}] /\
       repos (settings (host (tab_action (loadSettings pl) (TabAdd n p)))) =
         repos (defaults (tab_action (loadSettings pl) (TabAdd n p)))) /\
  (forall w, saved w = None ->
     settings (host (loadSettings (fresh_plugin w))) = DEFAULT_SETTINGS).
Proof.
  destruct (tab_actions_frame pl actions) as (Hl & Hn & Hi & Hs).
  split; [|split; [exact Hl|split; [exact Hn|split; [exact Hi|split; [|split]]]]].
  - intros H. split; [now apply Hs|]. apply loadSettings_saved. now apply Hs.
  - reflexivity.
  - intros H. unfold loadSettings, loadData. rewrite H. now repeat split.
  - intros w H. unfold loadSettings, loadData, fresh_plugin. cbn [host]. now rewrite H.
Qed.

(** X11. Adding a repository appends it with no [allBranches] property and
    leaves the others where they are; in the selection dialog its 'all
    branches' box is unchecked and its own box is checked exactly when its
    name is among [lastSelectedRepos]; deleting the row just added gives
    the array back. *)
Theorem tab_add_appends (w : World) (n p : string) :
  repos (settings (tab_step w (TabAdd n p))) =
    repos (settings w) ++ [{| name := n; path := p; allBranches := None |}] /\
  (forall i, i < length (repos (settings w)) ->
     repos (settings (tab_step w (TabAdd n p))) !! i = repos (settings w) !! i) /\
  allBranchesChecked
    (open_RepoSelectionModal (repos (settings (tab_step w (TabAdd n p))))
       (lastSelectedRepos (settings (tab_step w (TabAdd n p)))))
    !! length (repos (settings w)) = Some false /\
  checked
    (open_RepoSelectionModal (repos (settings (tab_step w (TabAdd n p))))
       (lastSelectedRepos (settings (tab_step w (TabAdd n p)))))
    !! length (repos (settings w)) = Some (includes (lastSelectedRepos (settings w)) n) /\
  repos (settings (tab_step (tab_step w (TabAdd n p))
                     (TabDelete (length (repos (settings w)))))) =
    repos (settings w).
Proof.
  cbn [tab_step saveSettings set_repos set_settings snd settings repos lastSelectedRepos].
  split; [reflexivity|]. split; [intros i Hi; now apply lookup_app_l|].
  cbn [open_RepoSelectionModal allBranchesChecked checked].
  rewrite !map_app. cbn [map].
  rewrite !list_lookup_middle by (rewrite ?length_map; reflexivity).
  split; [reflexivity|]. split; [reflexivity|].
  cbn [saveSettings set_repos set_settings snd settings repos].
  induction (repos (settings w)) as [|r rs IH]; [reflexivity|].
  cbn. f_equal. exact IH.
Qed.

Lemma tab_add_appends_witness :
  repos (settings (tab_step (Sample.world [Sample.A] []) (TabAdd "B" "/b"))) !! 0 =
    Some Sample.A.
Proof.
  destruct (tab_add_appends (Sample.world [Sample.A] []) "B" "/b") as (_ & Hold & _).
  rewrite (Hold 0); [reflexivity | cbn; lia].
Defined.

(** X12. Deleting a repository does not forget its name: the name stays in
    [lastSelectedRepos], so a repository added later under that name has
    its box checked when the selection dialog opens. *)
Theorem deleted_name_is_remembered
    (w : World) (i : nat) (repo : GitRepo) (p : string) :
  repos (settings w) !! i = Some repo ->
  In (name repo) (lastSelectedRepos (settings w)) ->
  In (name repo) (lastSelectedRepos (settings (tab_step w (TabDelete i)))) /\
  length (repos (settings (tab_step w (TabDelete i)))) =
    pred (length (repos (settings w))) /\
  checked
    (open_RepoSelectionModal
       (repos (settings (tab_run w [TabDelete i; TabAdd (name repo) p])))
       (lastSelectedRepos (settings (tab_run w [TabDelete i; TabAdd (name repo) p]))))
    !! pred (length (repos (settings w))) = Some true.
Proof.
  intros Hi Hin.
  assert (Hlen : length (delete i (repos (settings w))) = pred (length (repos (settings w)))).
  { rewrite length_delete by eauto. lia. }
  cbn [tab_run fold_left tab_step]. rewrite Hi.
  cbn [saveSettings set_repos set_settings snd settings repos lastSelectedRepos].
  split; [exact Hin|]. split; [exact Hlen|].
  cbn [open_RepoSelectionModal checked]. rewrite map_app, <- Hlen. cbn [map name].
  rewrite list_lookup_middle by (now rewrite length_map).
  f_equal. now apply includes_In.
Qed.

Lemma deleted_name_is_remembered_witness :
  checked
    (open_RepoSelectionModal
       (repos (settings (tab_run (Sample.world [Sample.A; Sample.B] ["B"])
                           [TabDelete 1; TabAdd "B" "/elsewhere"])))
       (lastSelectedRepos
          (settings (tab_run (Sample.world [Sample.A; Sample.B] ["B"])
                       [TabDelete 1; TabAdd "B" "/elsewhere"]))))
    !! 1 = Some true.
Proof.
  destruct (deleted_name_is_remembered (Sample.world [Sample.A; Sample.B] ["B"])
              1 Sample.B "/elsewhere" eq_refl) as (_ & _ & Hchecked).
  - now left.
  - exact Hchecked.
Defined.

(** X13. The toggle of a row writes the [allBranches] field of that
    repository and of no other, and saves; the next selection dialog shows
    the 'all branches' box of the repository in that state, and the next
    query for it carries [--all] exactly when the toggle was set. *)
Theorem tab_toggle_sets_scope (w : World) (i : nat) (v : bool) (repo : GitRepo) :
  repos (settings w) !! i = Some repo ->
  repos (settings (tab_step w (TabToggle i v))) !! i = Some (set_allBranches v repo) /\
  (forall j, j <> i ->
     repos (settings (tab_step w (TabToggle i v))) !! j = repos (settings w) !! j) /\
  saved (tab_step w (TabToggle i v)) = Some (settings (tab_step w (TabToggle i v))) /\
  allBranchesChecked
    (open_RepoSelectionModal (repos (settings (tab_step w (TabToggle i v))))
       (lastSelectedRepos (settings (tab_step w (TabToggle i v))))) !! i = Some v /\
  (forall date,
     occurs "--all" (gitLogCommand date (path repo)
                       (default_false (allBranches (set_allBranches v repo)))) =
     v || occurs "--all" (path repo) || occurs "--all" date).
Proof.
  intros Hi. cbn [tab_step]. rewrite Hi.
  cbn [saveSettings set_repos set_settings snd settings repos lastSelectedRepos saved].
  split; [|split; [|split; [|split]]].
  - rewrite list_lookup_alter, Hi. now rewrite decide_True by reflexivity.
  - intros j Hj. rewrite list_lookup_alter. now rewrite decide_False by congruence.
  - reflexivity.
  - cbn [open_RepoSelectionModal allBranchesChecked].
    rewrite list_lookup_fmap, list_lookup_alter, Hi.
    rewrite decide_True by reflexivity. cbn. now destruct v.
  - intros date. cbn [set_allBranches allBranches default_false].
    rewrite gitLogCommand_parts, !occurs_sep by reflexivity.
    destruct v; eval_closed; cbn [orb];
      destruct (occurs "--all" (path repo)), (occurs "--all" date); reflexivity.
Qed.

Lemma tab_toggle_sets_scope_witness :
  repos (settings (tab_step (Sample.world [Sample.A; Sample.B] []) (TabToggle 0 true))) =
    [{| name := "A"; path := "/a"; allBranches := Some true |}; Sample.B].
Proof.
  destruct (tab_toggle_sets_scope (Sample.world [Sample.A; Sample.B] []) 0 true
              Sample.A eq_refl) as (H0 & Hother & _).
  apply list_eq. intros [|[|j]].
  - exact H0.
  - now rewrite (Hother 1).
  - now rewrite (Hother (S (S j))).
Defined.

Lemma tab_actions_are_persisted_witness :
  settings (host (loadSettings
                    (tab_actions
                       (tab_action (fresh_plugin (Sample.world [] [])) (TabAdd "A" "/a"))
                       [TabAdd "B" "/b"; TabToggle 1 true; TabDelete 0]))) =
    {| repos := [{| name := "B"; path := "/b"; allBranches := Some true |}];
       lastSelectedRepos := [] |} /\
  repos (defaults (tab_action (loadSettings (fresh_plugin (Sample.world [] [])))
                     (TabAdd "A" "/a"))) = [Sample.A].
Proof.
  split.
  - destruct (tab_actions_are_persisted
                (tab_action (fresh_plugin (Sample.world [] [])) (TabAdd "A" "/a"))
                [TabAdd "B" "/b"; TabToggle 1 true; TabDelete 0]) as (Hsaved & _).
    destruct (Hsaved eq_refl) as (_ & Hload & _).
    exact Hload.
  - destruct (tab_actions_are_persisted (fresh_plugin (Sample.world [] [])) [])
      as (_ & _ & _ & _ & _ & Hnone & _).
    destruct (Hnone eq_refl) as (_ & _ & Hadd).
    destruct (Hadd "A" "/a") as [Hdef _]. exact Hdef.
Defined.

Section EndToEnd.

Variable execSync : string -> completion string.

(** X14. On a daily note, pressing 'Insert Git Log' without touching a box
    inserts one text: the blocks of the repositories named in
    [lastSelectedRepos], in the display order of the settings, each built
    from its own query for the date in the file name; the settings are
    saved with the names of those repositories. *)
Theorem daily_note_insertion (s : string) (w : World) :
  DatePattern s ->
  List.filter (fun r => includes (lastSelectedRepos (settings w)) (name r))
              (repos (settings w)) <> [] ->
  exists text w',
    run execSync (insertGitLog (Some s) w) [ClickInsert] = (Completed, w') /\
    inserted w' = inserted w ++ [text] /\
    notices w' = notices w /\
    fst (for_of execSync s
           (List.filter (fun r => includes (lastSelectedRepos (settings w)) (name r))
                        (repos (settings w))) "" w) = Normal text /\
    saved w' = Some (settings w') /\
    lastSelectedRepos (settings w') =
      map name (List.filter (fun r => includes (lastSelectedRepos (settings w)) (name r))
                            (repos (settings w))).
Proof.
  intros Hs Hne.
  apply date_shape_pattern in Hs.
  rewrite insertGitLog_cases. change (default "" (Some s)) with s. rewrite Hs.
  cbn [run fold_left]. rewrite step_submit. cbn zeta.
  change (open_RepoSelectionModal (repos (settings w)) (lastSelectedRepos (settings w)))
    with (modal_after (repos (settings w)) (lastSelectedRepos (settings w)) []).
  fold (submitted (repos (settings w)) (lastSelectedRepos (settings w)) []).
  assert (Hlen := deref_length _ _
                    (refs_in_range_after (repos (settings w))
                       (lastSelectedRepos (settings w)) [])).
  fold (submitted (repos (settings w)) (lastSelectedRepos (settings w)) []) in Hlen.
  rewrite <- Hlen, submitted_no_clicks.
  destruct (List.filter _ _) as [|r l] eqn:E; [congruence|].
  cbn [length Nat.ltb Nat.leb].
  eexists. eexists. split; [reflexivity|]. cbn [inserted notices saved settings].
  rewrite for_of_text, app_empty. now repeat split.
Qed.

End EndToEnd.

Lemma daily_note_insertion_witness :
  exists w',
    run Sample.execSync_quiet
        (insertGitLog (Some "2024-03-15")
           (Sample.world [{| name := "proj"; path := "/repo"; allBranches := Some false |}]
                         ["proj"]))
        [ClickInsert] = (Completed, w') /\
    inserted w' =
      [">[!NOTE]- `git log` for proj" +:+ LF +:+ "> ```" +:+ LF +:+
       "> No commits found for the specified date." +:+ LF +:+ "> ```" +:+ LF +:+ LF].
Proof.
  destruct (daily_note_insertion Sample.execSync_quiet "2024-03-15"
              (Sample.world [{| name := "proj"; path := "/repo"; allBranches := Some false |}]
                            ["proj"]))
    as (text & w' & Hrun & Hins & _ & Htext & _).
  - apply date_shape_pattern. reflexivity.
  - discriminate.
  - exists w'. split; [exact Hrun|]. rewrite Hins.
    vm_compute in Htext. injection Htext as <-. reflexivity.
Defined.
